(** * Request-lifecycle metrics listener of the DNS server

    A shallow embedding of [internal/dnsserver/prometheus/server.go]: the
    [ServerMetricsListener] hooks, the metric declarations they update and the
    state of the metrics registry they mutate.

    - Go's [int] is [Z]; a [float64] is the rational it denotes ([Q]): every
      size converted by [float64(...)] is an integer far below 2^53, so the
      conversion is exact.
    - A hook is a computation over the registry that either returns or
      panics; a panic keeps the updates made before it.
    - A [CounterVec] or [HistogramVec] is a family of children keyed by their
      label values; the registry maps (family name, label values) to the
      child's value. *)

From Stdlib Require Import ZArith QArith Ascii String DecimalString.
From stdpp Require Import gmap strings list fin_maps.

Open Scope Z_scope.
Open Scope string_scope.

(** ** Computations that may panic *)

(** What a hook can panic with. *)
Inductive PanicValue :=
| MissingServerInfo
| MissingStartTime
| MissingRequestInfo
| InconsistentCardinality (family : string) (want got : nat).

Inductive Result (A : Type) :=
| Ok (a : A)
| Panic (v : PanicValue).
Arguments Ok {A} a.
Arguments Panic {A} v.

(** A Go call over the mutable state [St]: the outcome and the state it
    leaves, also when it panics. *)
Definition Go (St A : Type) : Type := St -> Result A * St.

Definition ret {St A} (a : A) : Go St A := fun s => (Ok a, s).

Definition panic {St A} (v : PanicValue) : Go St A := fun s => (Panic v, s).

Definition bind {St A B} (m : Go St A) (k : A -> Go St B) : Go St B :=
  fun s =>
    match m s with
    | (Ok a, s') => k a s'
    | (Panic v, s') => (Panic v, s')
    end.

Declare Scope go_scope.
Delimit Scope go_scope with go.
Notation "x <- m ;; k" := (bind m (fun x => k))
  (at level 20, m at level 99, k at level 200, only parsing) : go_scope.
Notation "m ;; k" := (bind m (fun _ => k))
  (at level 100, k at level 200, only parsing, right associativity) : go_scope.

Definition isPanic {A} (r : Result A) : bool :=
  match r with Ok _ => false | Panic _ => true end.

(** ** The DNS message library *)

Module dns.

(** Modelled from the spec: a message is opaque to the listener beyond the
    numeric response code of a response and the query type of a request,
    kept here as the text of its label. *)
Record Msg := {
  Rcode : Z;
  Qtype : string;
}.

(** Modelled from the spec: the table of the standard response-code
    mnemonics ("0 -> NOERROR, 2 -> SERVFAIL, 3 -> NXDOMAIN, ..."). *)
Definition RcodeToString : gmap Z string :=
  list_to_map [
    (0, "NOERROR"); (1, "FORMERR"); (2, "SERVFAIL"); (3, "NXDOMAIN");
    (4, "NOTIMP"); (5, "REFUSED"); (6, "YXDOMAIN"); (7, "YXRRSET");
    (8, "NXRRSET"); (9, "NOTAUTH"); (10, "NOTZONE");
    (16, "BADSIG"); (17, "BADKEY"); (18, "BADTIME"); (19, "BADMODE");
    (20, "BADNAME"); (21, "BADALG"); (22, "BADTRUNC"); (23, "BADCOOKIE")
  ].

End dns.

(** ** The server package: ambient context *)

Module dnsserver.

(** A point in time, in nanoseconds. *)
Definition Time := Z.

(** Modelled from the spec: the identity of the server instance and its
    transport (name, bind address, protocol), the label source of every
    metric. *)
Record ServerInfo := {
  Name : string;
  Addr : string;
  Proto : string;
}.

(** Modelled from the spec: the request info; of its derived facts the
    listener reads the two byte sizes. *)
Record RequestInfo := {
  RequestSize : Z;
  ResponseSize : Z;
}.

(** The values a [context.Context] can carry for the listener. *)
Record Context := {
  ctxServerInfo : option ServerInfo;
  ctxStartTime : option Time;
  ctxRequestInfo : option RequestInfo;
}.

(** Modelled from the spec: the response-writer handle, which identifies
    the transport and the addresses actually used and is consumed for label
    derivation only: the network and the address family of the query, each
    kept as the text of its label. *)
Record ResponseWriter := {
  Network : string;
  Family : string;
}.

(** Modelled from the spec: [MustServerInfoFromContext], a helper of the
    server package; a context without the server info is a contract
    violation and panics. *)
Definition MustServerInfoFromContext {St} (ctx : Context) : Go St ServerInfo :=
  match ctxServerInfo ctx with
  | Some si => ret si
  | None => panic MissingServerInfo
  end.

(** Modelled from the spec: [MustStartTimeFromContext], as above for the
    start time. *)
Definition MustStartTimeFromContext {St} (ctx : Context) : Go St Time :=
  match ctxStartTime ctx with
  | Some t => ret t
  | None => panic MissingStartTime
  end.

(** Modelled from the spec: [MustRequestInfoFromContext], as above for the
    request info. *)
Definition MustRequestInfoFromContext {St} (ctx : Context) : Go St RequestInfo :=
  match ctxRequestInfo ctx with
  | Some ri => ret ri
  | None => panic MissingRequestInfo
  end.

End dnsserver.

(** ** The metrics client: vectors, children and the registry *)

Module prometheus.

(** The options of a metric family. [Buckets] is only read for histograms;
    the namespace and subsystem are one shared prefix and are left out. *)
Record Opts := {
  Name : string;
  Help : string;
  Buckets : list Q;
}.

Record CounterVec := NewCounterVec {
  counterOpts : Opts;
  counterLabels : list string;
}.

Record HistogramVec := NewHistogramVec {
  histogramOpts : Opts;
  histogramLabels : list string;
}.

(** The default buckets of the client library, used when [Buckets] is not
    given. *)
Definition DefBuckets : list Q :=
  [5 # 1000; 1 # 100; 25 # 1000; 5 # 100; 1 # 10; 25 # 100; 5 # 10;
   1 # 1; 25 # 10; 5 # 1; 10 # 1]%Q.

Definition upperBounds (vec : HistogramVec) : list Q :=
  match Buckets (histogramOpts vec) with
  | [] => DefBuckets
  | bs => bs
  end.

(** One histogram child: a count per bucket (the bucket of index [i] holds
    the observations [v] with [v <= bound i] that are above the bound before
    it), the sum and the number of the observations. *)
Record Histogram := {
  hBuckets : list nat;
  hSum : Q;
  hCount : nat;
}.

Definition newHistogram (bounds : list Q) : Histogram :=
  {| hBuckets := replicate (length bounds) 0%nat; hSum := 0%Q; hCount := 0%nat |}.

(** The index of the first bound that is at least [v]; the number of bounds
    when there is none (the implicit +Inf bucket). *)
Fixpoint findBucket (bounds : list Q) (v : Q) : nat :=
  match bounds with
  | [] => 0%nat
  | b :: bs => if Qle_bool v b then 0%nat else S (findBucket bs v)
  end.

Definition observe (bounds : list Q) (v : Q) (h : Histogram) : Histogram :=
  {| hBuckets := alter S (findBucket bounds v) (hBuckets h);
     hSum := (hSum h + v)%Q;
     hCount := S (hCount h) |}.

(** The key of a child: the name of its family and its label values. *)
Definition Key : Type := string * list string.

(** The process-wide metric state. A counter child that was never
    incremented reads 0, a histogram child that never observed is new. *)
Record Registry := {
  counters : gmap (string * list string) nat;
  histograms : gmap (string * list string) Histogram;
}.

Definition emptyRegistry : Registry := {| counters := ∅; histograms := ∅ |}.

(** A handle to one child of a counter family. *)
Record Counter := { counterKey : Key }.

(** A handle to one child of a histogram family. *)
Record Observer := { observerKey : Key; observerBounds : list Q }.

Definition counterValue (r : Registry) (k : Key) : nat :=
  default 0%nat (counters r !! k).

Definition histogramValue (r : Registry) (k : Key) (bounds : list Q) : Histogram :=
  default (newHistogram bounds) (histograms r !! k).

(** [vec.WithLabelValues(lvs...)] panics unless it gets one value per
    declared label. *)
Definition WithLabelValues (vec : CounterVec) (lvs : list string) : Go Registry Counter :=
  if decide (length lvs = length (counterLabels vec)) then
    ret {| counterKey := (prometheus.Name (counterOpts vec), lvs) |}
  else
    panic (InconsistentCardinality (prometheus.Name (counterOpts vec))
             (length (counterLabels vec)) (length lvs)).

Definition WithLabelValuesH (vec : HistogramVec) (lvs : list string) : Go Registry Observer :=
  if decide (length lvs = length (histogramLabels vec)) then
    ret {| observerKey := (prometheus.Name (histogramOpts vec), lvs);
           observerBounds := upperBounds vec |}
  else
    panic (InconsistentCardinality (prometheus.Name (histogramOpts vec))
             (length (histogramLabels vec)) (length lvs)).

(** The registry after one increment of the child at [k]. *)
Definition incAt (k : Key) (r : Registry) : Registry :=
  {| counters := <[k := S (counterValue r k)]> (counters r);
     histograms := histograms r |}.

(** The registry after the child at [k] observed [v]. *)
Definition observeAt (k : Key) (bounds : list Q) (v : Q) (r : Registry) : Registry :=
  {| counters := counters r;
     histograms := <[k := observe bounds v (histogramValue r k bounds)]> (histograms r) |}.

Definition Inc (c : Counter) : Go Registry unit :=
  fun r => (Ok tt, incAt (counterKey c) r).

Definition Observe (o : Observer) (v : Q) : Go Registry unit :=
  fun r => (Ok tt, observeAt (observerKey o) (observerBounds o) v r).

End prometheus.

Import prometheus.
Import dnsserver.

(** ** The metric declarations of the server *)

Definition requestTotal : CounterVec :=
  NewCounterVec
    {| prometheus.Name := "request_total";
       Help := "The number of processed DNS requests.";
       Buckets := [] |}
    ["name"; "proto"; "network"; "addr"; "type"; "family"].

Definition requestDuration : HistogramVec :=
  NewHistogramVec
    {| prometheus.Name := "request_duration_seconds";
       Help := "Time elapsed on processing a DNS query.";
       Buckets := [] |}
    ["name"; "proto"; "addr"].

Definition requestSize : HistogramVec :=
  NewHistogramVec
    {| prometheus.Name := "request_size_bytes";
       Help := "Time elapsed on processing a DNS query.";
       Buckets := [0; 50; 100; 200; 300; 511; 1023; 4095; 8291]%Q |}
    ["name"; "proto"; "addr"].

Definition responseSize : HistogramVec :=
  NewHistogramVec
    {| prometheus.Name := "response_size_bytes";
       Help := "Time elapsed on processing a DNS query.";
       Buckets := [0; 50; 100; 200; 300; 511; 1023; 4095; 8291]%Q |}
    ["name"; "proto"; "addr"].

Definition responseRCode : CounterVec :=
  NewCounterVec
    {| prometheus.Name := "response_rcode_total";
       Help := "The counter for DNS response codes.";
       Buckets := [] |}
    ["name"; "proto"; "addr"; "rcode"].

Definition errorTotal : CounterVec :=
  NewCounterVec
    {| prometheus.Name := "error_total";
       Help := "The number of errors occurred in the DNS server.";
       Buckets := [] |}
    ["name"; "proto"; "addr"].

Definition panicTotal : CounterVec :=
  NewCounterVec
    {| prometheus.Name := "panic_total";
       Help := "The number of panics occurred in the DNS server.";
       Buckets := [] |}
    ["name"; "proto"; "addr"].

Definition invalidMsgTotal : CounterVec :=
  NewCounterVec
    {| prometheus.Name := "invalid_msg_total";
       Help := "The number of invalid DNS messages processed by the DNS server.";
       Buckets := [] |}
    ["name"; "proto"; "addr"].

Definition quicAddrValidationCacheLookups : CounterVec :=
  NewCounterVec
    {| prometheus.Name := "quic_addr_validation_lookups";
       Help := "The number of QUIC address validation lookups." ++
               "hit=1 means that a cached item was found.";
       Buckets := [] |}
    ["hit"].

(** The two children bound once, when the package is initialised: the
    handles that [quicAddrValidationCacheLookups.WithLabelValues("1")] and
    [...("0")] return. *)
Definition quicAddrValidationCacheLookupsHits : Counter :=
  {| counterKey := (prometheus.Name (counterOpts quicAddrValidationCacheLookups), ["1"]) |}.

Definition quicAddrValidationCacheLookupsMisses : Counter :=
  {| counterKey := (prometheus.Name (counterOpts quicAddrValidationCacheLookups), ["0"]) |}.

(** ** Label derivation *)

(** The label values of the server-level schema: "name", "proto", "addr". *)
Definition serverLabels (serverInfo : ServerInfo) : list string :=
  [dnsserver.Name serverInfo; Proto serverInfo; Addr serverInfo].

(** Modelled from the spec: [counterWithRequestLabels], a helper of the
    package; it binds the full schema in the declared order: server name,
    protocol, network, address, query type, address family. It is given the
    server info, the request and the response writer, so the three per-query
    values come from the latter two. *)
Definition counterWithRequestLabels (serverInfo : ServerInfo) (req : dns.Msg)
    (rw : ResponseWriter) (vec : CounterVec) : Go Registry Counter :=
  WithLabelValues vec
    [dnsserver.Name serverInfo; Proto serverInfo; Network rw; Addr serverInfo;
     dns.Qtype req; Family rw].

(** Modelled from the spec: [counterWithServerLabels] binds the server-level
    schema (server name, protocol, address). *)
Definition counterWithServerLabels (serverInfo : ServerInfo) (vec : CounterVec)
    : Go Registry Counter :=
  WithLabelValues vec (serverLabels serverInfo).

(** Modelled from the spec: [counterWithServerLabelsPlusRCode] binds the
    server-level schema followed by the response-code label. *)
Definition counterWithServerLabelsPlusRCode (serverInfo : ServerInfo)
    (rCode : string) (vec : CounterVec) : Go Registry Counter :=
  WithLabelValues vec (serverLabels serverInfo ++ [rCode]).

(** Modelled from the spec: [histogramWithServerLabels] binds the
    server-level schema on a histogram family. *)
Definition histogramWithServerLabels (serverInfo : ServerInfo)
    (vec : HistogramVec) : Go Registry Observer :=
  WithLabelValuesH vec (serverLabels serverInfo).

(** The decimal text of an integer. *)
Definition itoa (n : Z) : string := NilZero.string_of_int (Z.to_int n).

(** Modelled from the spec: [rCodeToString], a helper of the package; a
    known code maps to its mnemonic, any other code to its numeric value as
    a string. *)
Definition rCodeToString (rCode : Z) : string :=
  match dns.RcodeToString !! rCode with
  | Some rc => rc
  | None => itoa rCode
  end.

(** ** The listener *)

(** [time.Since(startTime).Seconds()], with the clock reading [now]. *)
Definition Since (now startTime : Time) : Z := now - startTime.

Definition Seconds (d : Z) : Q := (inject_Z d / inject_Z 1000000000)%Q.

(** A Go [error] and a recovered value; the listener never looks inside. *)
Definition error : Type := string.

Inductive any :=
| anyNil
| anyString (s : string)
| anyInt (n : Z)
| anyError (e : error).

Open Scope go_scope.

(** [OnRequest]; [now] is what the clock reads when [time.Since] runs, a nil
    [resp] is [None]. *)
Definition OnRequest (now : Time) (ctx : Context) (req : dns.Msg)
    (resp : option dns.Msg) (rw : ResponseWriter) : Go Registry unit :=
  serverInfo <- MustServerInfoFromContext ctx;;
  startTime <- MustStartTimeFromContext ctx;;
  c <- counterWithRequestLabels serverInfo req rw requestTotal;;
  Inc c;;
  let elapsed := Seconds (Since now startTime) in
  h <- histogramWithServerLabels serverInfo requestDuration;;
  Observe h elapsed;;
  ri <- MustRequestInfoFromContext ctx;;
  h <- histogramWithServerLabels serverInfo requestSize;;
  Observe h (inject_Z (RequestSize ri));;
  match resp with
  | Some resp =>
      h <- histogramWithServerLabels serverInfo responseSize;;
      Observe h (inject_Z (ResponseSize ri));;
      let rCode := rCodeToString (dns.Rcode resp) in
      c <- counterWithServerLabelsPlusRCode serverInfo rCode responseRCode;;
      Inc c
  | None =>
      c <- counterWithServerLabelsPlusRCode serverInfo "DROPPED" responseRCode;;
      Inc c
  end.

Definition OnInvalidMsg (ctx : Context) : Go Registry unit :=
  serverInfo <- MustServerInfoFromContext ctx;;
  c <- counterWithServerLabels serverInfo invalidMsgTotal;;
  Inc c.

Definition OnError (ctx : Context) (_ : error) : Go Registry unit :=
  serverInfo <- MustServerInfoFromContext ctx;;
  c <- counterWithServerLabels serverInfo errorTotal;;
  Inc c.

Definition OnPanic (ctx : Context) (_ : any) : Go Registry unit :=
  serverInfo <- MustServerInfoFromContext ctx;;
  c <- counterWithServerLabels serverInfo panicTotal;;
  Inc c.

Definition OnQUICAddressValidation (hit : bool) : Go Registry unit :=
  if hit then Inc quicAddrValidationCacheLookupsHits
  else Inc quicAddrValidationCacheLookupsMisses.

(** The registry a run of hooks leaves, and whether one of them panicked. *)
Definition exec {A} (m : Go Registry A) (r : Registry) : Registry := snd (m r).

Definition outcome {A} (m : Go Registry A) (r : Registry) : Result A := fst (m r).

(** A sequence of address-validation lookups, oldest first. *)
Fixpoint lookups (hits : list bool) : Go Registry unit :=
  match hits with
  | [] => ret tt
  | hit :: rest => OnQUICAddressValidation hit;; lookups rest
  end.

Close Scope go_scope.


(** The keys the hooks touch. *)
Definition requestKey (si : ServerInfo) (req : dns.Msg) (rw : ResponseWriter) : Key :=
  (prometheus.Name (counterOpts requestTotal),
   [dnsserver.Name si; Proto si; Network rw; Addr si; dns.Qtype req; Family rw]).

Definition serverKey (family : string) (si : ServerInfo) : Key :=
  (family, serverLabels si).

Definition rcodeKey (si : ServerInfo) (rCode : string) : Key :=
  (prometheus.Name (counterOpts responseRCode), (serverLabels si ++ [rCode])%list).

(** The registry once [OnRequest] has counted the request and observed its
    duration. *)
Definition counted (si : ServerInfo) (st now : Time) (req : dns.Msg)
    (rw : ResponseWriter) (r : Registry) : Registry :=
  observeAt (serverKey (prometheus.Name (histogramOpts requestDuration)) si)
    (upperBounds requestDuration) (Seconds (Since now st))
    (incAt (requestKey si req rw) r).

(** ... and observed the size of the request. *)
Definition sized (si : ServerInfo) (ri : RequestInfo) (r : Registry) : Registry :=
  observeAt (serverKey (prometheus.Name (histogramOpts requestSize)) si)
    (upperBounds requestSize) (inject_Z (RequestSize ri)) r.

(** The registry after one address-validation lookup. *)
Definition countLookup (r : Registry) (hit : bool) : Registry :=
  incAt (counterKey (if hit then quicAddrValidationCacheLookupsHits
                     else quicAddrValidationCacheLookupsMisses)) r.

(** ** A concrete server and request *)

Definition exampleServer : ServerInfo :=
  {| dnsserver.Name := "default_dns"; Addr := "127.0.0.1:53"; Proto := "dns" |}.

Definition exampleInfo : RequestInfo := {| RequestSize := 64; ResponseSize := 128 |}.

(** A context with the three fields, one with none, one without request
    info. *)
Definition exampleCtx : Context :=
  {| ctxServerInfo := Some exampleServer;
     ctxStartTime := Some 0;
     ctxRequestInfo := Some exampleInfo |}.

Definition emptyCtx : Context :=
  {| ctxServerInfo := None; ctxStartTime := None; ctxRequestInfo := None |}.

Definition noInfoCtx : Context :=
  {| ctxServerInfo := Some exampleServer;
     ctxStartTime := Some 0;
     ctxRequestInfo := None |}.

Definition exampleReq : dns.Msg := {| dns.Rcode := 0; dns.Qtype := "A" |}.

Definition exampleResp : dns.Msg := {| dns.Rcode := 3; dns.Qtype := "A" |}.

Definition exampleRw : ResponseWriter := {| Network := "udp"; Family := "1" |}.

(** ** Sequences of hook calls *)

(** One call of a hook of the listener, with its arguments. *)
Inductive Event :=
| RequestDone (now : Time) (ctx : Context) (req : dns.Msg)
    (resp : option dns.Msg) (rw : ResponseWriter)
| InvalidMsg (ctx : Context)
| ErrorSeen (ctx : Context) (e : error)
| PanicSeen (ctx : Context) (v : any)
| QUICAddressValidation (hit : bool).

Definition fire (ev : Event) : Go Registry unit :=
  match ev with
  | RequestDone now ctx req resp rw => OnRequest now ctx req resp rw
  | InvalidMsg ctx => OnInvalidMsg ctx
  | ErrorSeen ctx e => OnError ctx e
  | PanicSeen ctx v => OnPanic ctx v
  | QUICAddressValidation hit => OnQUICAddressValidation hit
  end.

(** The registry after the hooks were called in order, oldest first. The
    registry is process-wide: what a call leaves, also one that panicked, is
    what the next call finds. *)
Definition serve (evs : list Event) (r : Registry) : Registry :=
  foldl (fun r ev => exec (fire ev) r) r evs.

(** One update of a child, and the registry after a list of them. *)
Inductive Update :=
| Incremented (k : Key)
| Observed (k : Key) (bounds : list Q) (v : Q).

Definition update (r : Registry) (u : Update) : Registry :=
  match u with
  | Incremented k => incAt k r
  | Observed k bounds v => observeAt k bounds v r
  end.

Definition updated (r : Registry) (us : list Update) : Registry := foldl update r us.

(** The updates a call of [OnRequest] makes before it returns or panics. *)
Definition requestUpdates (now : Time) (ctx : Context) (req : dns.Msg)
    (resp : option dns.Msg) (rw : ResponseWriter) : list Update :=
  match ctxServerInfo ctx, ctxStartTime ctx with
  | Some si, Some st =>
      Incremented (requestKey si req rw)
      :: Observed (serverKey (prometheus.Name (histogramOpts requestDuration)) si)
           (upperBounds requestDuration) (Seconds (Since now st))
      :: match ctxRequestInfo ctx with
         | None => []
         | Some ri =>
             Observed (serverKey (prometheus.Name (histogramOpts requestSize)) si)
               (upperBounds requestSize) (inject_Z (RequestSize ri))
             :: match resp with
                | Some resp =>
                    [Observed
                       (serverKey (prometheus.Name (histogramOpts responseSize)) si)
                       (upperBounds responseSize) (inject_Z (ResponseSize ri));
                     Incremented (rcodeKey si (rCodeToString (dns.Rcode resp)))]
                | None => [Incremented (rcodeKey si "DROPPED")]
                end
         end
  | _, _ => []
  end.

(** The updates of a hook that increments the server-level child of [vec]. *)
Definition serverUpdates (vec : CounterVec) (ctx : Context) : list Update :=
  match ctxServerInfo ctx with
  | Some si => [Incremented (serverKey (prometheus.Name (counterOpts vec)) si)]
  | None => []
  end.

Definition effects (ev : Event) : list Update :=
  match ev with
  | RequestDone now ctx req resp rw => requestUpdates now ctx req resp rw
  | InvalidMsg ctx => serverUpdates invalidMsgTotal ctx
  | ErrorSeen ctx _ => serverUpdates errorTotal ctx
  | PanicSeen ctx _ => serverUpdates panicTotal ctx
  | QUICAddressValidation hit =>
      [Incremented (counterKey (if hit then quicAddrValidationCacheLookupsHits
                                else quicAddrValidationCacheLookupsMisses))]
  end.

(** The child an update is aimed at, and whether it is an increment
    (an observation) of the child [k]. *)
Definition target (u : Update) : Key :=
  match u with Incremented k => k | Observed k _ _ => k end.

Definition incrementsKey (k : Key) (u : Update) : bool :=
  match u with Incremented k' => bool_decide (k' = k) | Observed _ _ _ => false end.

Definition observesKey (k : Key) (u : Update) : bool :=
  match u with Incremented _ => false | Observed k' _ _ => bool_decide (k' = k) end.

Definition incrementsFamily (family : string) (u : Update) : bool :=
  match u with Incremented k => bool_decide (k.1 = family) | Observed _ _ _ => false end.

Definition observesFamily (family : string) (u : Update) : bool :=
  match u with Incremented _ => false | Observed k _ _ => bool_decide (k.1 = family) end.

(** How many updates of a list pass a test. *)
Definition tally (p : Update -> bool) (us : list Update) : nat :=
  length (List.filter p us).

(** The number of observations a histogram child has made. *)
Definition observationCount (r : Registry) (k : Key) : nat :=
  from_option hCount 0%nat (histograms r !! k).

(** A sum over the children of a map. *)
Definition weigh {V} (g : Key -> V -> nat) (m : gmap (string * list string) V) : nat :=
  map_fold (fun k v acc => (g k v + acc)%nat) 0%nat m.

(** The sum of the children of a counter family. *)
Definition counterTotal (family : string) (r : Registry) : nat :=
  weigh (fun k v => if bool_decide (k.1 = family) then v else 0%nat) (counters r).

(** The number of observations of a histogram family, all children
    together. *)
Definition observations (family : string) (r : Registry) : nat :=
  weigh (fun k h => if bool_decide (k.1 = family) then hCount h else 0%nat)
    (histograms r).

(** The totals of the request metrics agree: every counted request has a
    duration, every response code goes with a request size, and there are
    no more response sizes than response codes nor more response codes than
    requests. *)
Definition consistent (r : Registry) : Prop :=
  counterTotal (prometheus.Name (counterOpts requestTotal)) r
  = observations (prometheus.Name (histogramOpts requestDuration)) r
  /\ counterTotal (prometheus.Name (counterOpts responseRCode)) r
     = observations (prometheus.Name (histogramOpts requestSize)) r
  /\ (observations (prometheus.Name (histogramOpts responseSize)) r
      <= counterTotal (prometheus.Name (counterOpts responseRCode)) r)%nat
  /\ (counterTotal (prometheus.Name (counterOpts responseRCode)) r
      <= counterTotal (prometheus.Name (counterOpts requestTotal)) r)%nat.

(** The histogram families of the server. *)
Definition histogramFamilies : list HistogramVec :=
  [requestDuration; requestSize; responseSize].

(** Every histogram child belongs to a declared family, has one count per
    bound of that family and has tallied no more than it has observed. *)
Definition shaped (r : Registry) : Prop :=
  forall (k : Key) (h : Histogram),
    histograms r !! k = Some h ->
    exists vec,
      vec ∈ histogramFamilies
      /\ k.1 = prometheus.Name (histogramOpts vec)
      /\ length (hBuckets h) = length (upperBounds vec)
      /\ (sum_list (hBuckets h) <= hCount h)%nat.

(** ** The registry under increments and observations *)

Section RegistryFacts.

Context (k : Key) (r : Registry).

Lemma counterValue_incAt : counterValue (incAt k r) k = S (counterValue r k).
Proof. unfold counterValue at 1, incAt; simpl. by rewrite lookup_insert_eq. Qed.

Lemma counters_incAt_ne k' : k' ≠ k -> counters (incAt k r) !! k' = counters r !! k'.
Proof. intros Hne. unfold incAt; simpl. by rewrite lookup_insert_ne. Qed.

Lemma counterValue_incAt_ne k' :
  k' ≠ k -> counterValue (incAt k r) k' = counterValue r k'.
Proof. intros Hne. unfold counterValue. by rewrite counters_incAt_ne. Qed.

Lemma histograms_incAt : histograms (incAt k r) = histograms r.
Proof. reflexivity. Qed.

Lemma histogramValue_incAt k' bounds :
  histogramValue (incAt k r) k' bounds = histogramValue r k' bounds.
Proof. reflexivity. Qed.

Lemma counters_observeAt bounds v : counters (observeAt k bounds v r) = counters r.
Proof. reflexivity. Qed.

Lemma counterValue_observeAt bounds v k' :
  counterValue (observeAt k bounds v r) k' = counterValue r k'.
Proof. reflexivity. Qed.

Lemma histogramValue_observeAt bounds v :
  histogramValue (observeAt k bounds v r) k bounds
  = observe bounds v (histogramValue r k bounds).
Proof. unfold histogramValue at 1, observeAt; simpl. by rewrite lookup_insert_eq. Qed.

Lemma histograms_observeAt_ne bounds v k' :
  k' ≠ k -> histograms (observeAt k bounds v r) !! k' = histograms r !! k'.
Proof. intros Hne. unfold observeAt; simpl. by rewrite lookup_insert_ne. Qed.

Lemma histogramValue_observeAt_ne bounds v k' bounds' :
  k' ≠ k ->
  histogramValue (observeAt k bounds v r) k' bounds' = histogramValue r k' bounds'.
Proof. intros Hne. unfold histogramValue. by rewrite histograms_observeAt_ne. Qed.

End RegistryFacts.

(** A key of another family is another key. *)
Lemma key_family_ne (k k' : Key) : k'.1 ≠ k.1 -> k' ≠ k.
Proof. intros Hne ->. by apply Hne. Qed.

(** ** What each hook does to the registry *)

Section Runs.

Context (ctx : Context) (si : ServerInfo).
Hypothesis Hsi : ctxServerInfo ctx = Some si.

Lemma OnInvalidMsg_run r :
  OnInvalidMsg ctx r
  = (Ok tt, incAt (serverKey (prometheus.Name (counterOpts invalidMsgTotal)) si) r).
Proof.
  unfold OnInvalidMsg, bind, MustServerInfoFromContext. by rewrite Hsi.
Qed.

Lemma OnError_run e r :
  OnError ctx e r = (Ok tt, incAt (serverKey (prometheus.Name (counterOpts errorTotal)) si) r).
Proof.
  unfold OnError, bind, MustServerInfoFromContext. by rewrite Hsi.
Qed.

Lemma OnPanic_run v r :
  OnPanic ctx v r = (Ok tt, incAt (serverKey (prometheus.Name (counterOpts panicTotal)) si) r).
Proof.
  unfold OnPanic, bind, MustServerInfoFromContext. by rewrite Hsi.
Qed.

Context (st : Time).
Hypothesis Hst : ctxStartTime ctx = Some st.

Lemma OnRequest_run_noinfo now req resp rw r :
  ctxRequestInfo ctx = None ->
  OnRequest now ctx req resp rw r = (Panic MissingRequestInfo, counted si st now req rw r).
Proof.
  intros Hri.
  unfold OnRequest, bind, MustServerInfoFromContext, MustStartTimeFromContext,
    MustRequestInfoFromContext.
  by rewrite Hsi, Hst, Hri.
Qed.

Lemma OnRequest_run_resp now req resp rw ri r :
  ctxRequestInfo ctx = Some ri ->
  OnRequest now ctx req (Some resp) rw r
  = (Ok tt,
     incAt (rcodeKey si (rCodeToString (dns.Rcode resp)))
       (observeAt (serverKey (prometheus.Name (histogramOpts responseSize)) si)
          (upperBounds responseSize) (inject_Z (ResponseSize ri))
          (sized si ri (counted si st now req rw r)))).
Proof.
  intros Hri.
  unfold OnRequest, bind, MustServerInfoFromContext, MustStartTimeFromContext,
    MustRequestInfoFromContext.
  by rewrite Hsi, Hst, Hri.
Qed.

Lemma OnRequest_run_dropped now req rw ri r :
  ctxRequestInfo ctx = Some ri ->
  OnRequest now ctx req None rw r
  = (Ok tt, incAt (rcodeKey si "DROPPED") (sized si ri (counted si st now req rw r))).
Proof.
  intros Hri.
  unfold OnRequest, bind, MustServerInfoFromContext, MustStartTimeFromContext,
    MustRequestInfoFromContext.
  by rewrite Hsi, Hst, Hri.
Qed.

End Runs.

(** ** Automation *)

(** Two keys differ as soon as their families do. *)
Ltac other_family :=
  apply key_family_ne; simpl;
  repeat match goal with H : _.1 = _ |- _ => rewrite H end;
  discriminate.

(** Reads a counter or a histogram child through the updates of a run. *)
Ltac through_updates :=
  unfold exec, outcome, counted, sized; cbn [fst snd];
  repeat first
    [ rewrite counterValue_incAt
    | rewrite counterValue_observeAt
    | rewrite counters_observeAt
    | rewrite histograms_incAt
    | rewrite histogramValue_incAt
    | rewrite histogramValue_observeAt
    | rewrite counterValue_incAt_ne by (assumption || other_family)
    | rewrite counters_incAt_ne by (assumption || other_family)
    | rewrite histogramValue_observeAt_ne by (assumption || other_family)
    | rewrite histograms_observeAt_ne by (assumption || other_family) ].

(** ** The hooks, claim by claim *)

(** C1: every [OnRequest] that is given the server info and the start time
    increments the request-total child of the six label values (server name,
    protocol, network, address, query type, address family) by exactly one,
    whether the response is present or absent and whether or not the hook
    returns; no other request-total child changes. *)
Theorem OnRequest_counts_request now ctx req resp rw r si st :
  ctxServerInfo ctx = Some si ->
  ctxStartTime ctx = Some st ->
  let r' := exec (OnRequest now ctx req resp rw) r in
  let k := requestKey si req rw in
  k = ("request_total",
       [dnsserver.Name si; Proto si; Network rw; Addr si; dns.Qtype req; Family rw])
  /\ counterLabels requestTotal = ["name"; "proto"; "network"; "addr"; "type"; "family"]
  /\ length k.2 = length (counterLabels requestTotal)
  /\ counterValue r' k = S (counterValue r k)
  /\ forall k', k'.1 = "request_total" -> k' ≠ k -> counters r' !! k' = counters r !! k'.
Proof.
  intros Hsi Hst r' k. subst r' k.
  repeat split; intros;
    destruct (ctxRequestInfo ctx) as [ri|] eqn:Hri; [destruct resp as [resp|] | | destruct resp as [resp|] | ];
    unfold exec;
    first [ rewrite (OnRequest_run_resp ctx si Hsi st Hst _ _ _ _ ri) by done
          | rewrite (OnRequest_run_dropped ctx si Hsi st Hst _ _ _ ri) by done
          | rewrite (OnRequest_run_noinfo ctx si Hsi st Hst) by done ];
    by through_updates.
Qed.

(** C2: an [OnRequest] with a response present (on a context that carries
    the three fields) observes the response byte size into the response-size
    child of the server labels and increments the response-code child whose
    label is the text of the response's code by exactly one; no other
    response-code child changes. *)
Theorem OnRequest_response_present now ctx req resp rw r si st ri :
  ctxServerInfo ctx = Some si ->
  ctxStartTime ctx = Some st ->
  ctxRequestInfo ctx = Some ri ->
  let r' := exec (OnRequest now ctx req (Some resp) rw) r in
  let kc := rcodeKey si (rCodeToString (dns.Rcode resp)) in
  let kh := serverKey (prometheus.Name (histogramOpts responseSize)) si in
  let bounds := upperBounds responseSize in
  outcome (OnRequest now ctx req (Some resp) rw) r = Ok tt
  /\ kc = ("response_rcode_total",
           [dnsserver.Name si; Proto si; Addr si; rCodeToString (dns.Rcode resp)])
  /\ kh = ("response_size_bytes", [dnsserver.Name si; Proto si; Addr si])
  /\ histogramValue r' kh bounds
     = observe bounds (inject_Z (ResponseSize ri)) (histogramValue r kh bounds)
  /\ counterValue r' kc = S (counterValue r kc)
  /\ forall k', k'.1 = "response_rcode_total" -> k' ≠ kc ->
       counters r' !! k' = counters r !! k'.
Proof.
  intros Hsi Hst Hri r' kc kh bounds. subst r' kc kh bounds.
  unfold exec, outcome.
  rewrite (OnRequest_run_resp ctx si Hsi st Hst now req resp rw ri r Hri).
  repeat split; intros; by through_updates.
Qed.

(** C3: an [OnRequest] with the response absent (on a context that carries
    the three fields) increments the response-code child labelled "DROPPED"
    by exactly one, leaves every other response-code child and the whole
    response-size family as they were, and observes the request size. *)
Theorem OnRequest_response_absent now ctx req rw r si st ri :
  ctxServerInfo ctx = Some si ->
  ctxStartTime ctx = Some st ->
  ctxRequestInfo ctx = Some ri ->
  let r' := exec (OnRequest now ctx req None rw) r in
  let kc := rcodeKey si "DROPPED" in
  let kq := serverKey (prometheus.Name (histogramOpts requestSize)) si in
  let bounds := upperBounds requestSize in
  outcome (OnRequest now ctx req None rw) r = Ok tt
  /\ kc = ("response_rcode_total", [dnsserver.Name si; Proto si; Addr si; "DROPPED"])
  /\ counterValue r' kc = S (counterValue r kc)
  /\ (forall k', k'.1 = "response_rcode_total" -> k' ≠ kc ->
        counters r' !! k' = counters r !! k')
  /\ (forall k, k.1 = "response_size_bytes" -> histograms r' !! k = histograms r !! k)
  /\ histogramValue r' kq bounds
     = observe bounds (inject_Z (RequestSize ri)) (histogramValue r kq bounds).
Proof.
  intros Hsi Hst Hri r' kc kq bounds. subst r' kc kq bounds.
  unfold exec, outcome.
  rewrite (OnRequest_run_dropped ctx si Hsi st Hst now req rw ri r Hri).
  repeat split; intros; by through_updates.
Qed.

(** C8: an [OnInvalidMsg] (on a context that carries the server info)
    increments the invalid-message child of the three server labels by
    exactly one; no other counter child and no histogram changes. *)
Theorem OnInvalidMsg_counts_only ctx si r :
  ctxServerInfo ctx = Some si ->
  let r' := exec (OnInvalidMsg ctx) r in
  let k := serverKey (prometheus.Name (counterOpts invalidMsgTotal)) si in
  outcome (OnInvalidMsg ctx) r = Ok tt
  /\ k = ("invalid_msg_total", [dnsserver.Name si; Proto si; Addr si])
  /\ counterLabels invalidMsgTotal = ["name"; "proto"; "addr"]
  /\ counterValue r' k = S (counterValue r k)
  /\ (forall k', k' ≠ k -> counters r' !! k' = counters r !! k')
  /\ histograms r' = histograms r.
Proof.
  intros Hsi r' k. subst r' k.
  unfold exec, outcome. rewrite (OnInvalidMsg_run ctx si Hsi r).
  repeat split; intros; by through_updates.
Qed.

(** C9: [OnError] and [OnPanic] do the same whatever error or recovered
    value they are given; on a context that carries the server info each
    increments its child of the three server labels by exactly one and
    changes nothing else. *)
Theorem OnError_OnPanic_ignore_value ctx (e1 e2 : error) (v1 v2 : any) r :
  OnError ctx e1 r = OnError ctx e2 r
  /\ OnPanic ctx v1 r = OnPanic ctx v2 r
  /\ forall si, ctxServerInfo ctx = Some si ->
       let ke := serverKey (prometheus.Name (counterOpts errorTotal)) si in
       let kp := serverKey (prometheus.Name (counterOpts panicTotal)) si in
       ke = ("error_total", [dnsserver.Name si; Proto si; Addr si])
       /\ kp = ("panic_total", [dnsserver.Name si; Proto si; Addr si])
       /\ OnError ctx e1 r = (Ok tt, incAt ke r)
       /\ OnPanic ctx v1 r = (Ok tt, incAt kp r)
       /\ counterValue (incAt ke r) ke = S (counterValue r ke)
       /\ counterValue (incAt kp r) kp = S (counterValue r kp)
       /\ (forall k', k' ≠ ke -> counters (incAt ke r) !! k' = counters r !! k')
       /\ (forall k', k' ≠ kp -> counters (incAt kp r) !! k' = counters r !! k')
       /\ histograms (incAt ke r) = histograms r
       /\ histograms (incAt kp r) = histograms r.
Proof.
  split; [reflexivity | split; [reflexivity |]].
  intros si Hsi ke kp. subst ke kp.
  rewrite (OnError_run ctx si Hsi e1 r), (OnPanic_run ctx si Hsi v1 r).
  repeat split; intros; by through_updates.
Qed.

(** C10: an [OnRequest] on a context that carries the server info and the
    start time but no request info panics after it has incremented
    request-total and observed the duration: the registry it leaves has both
    updates and none on request-size, response-size or the response codes. *)
Theorem OnRequest_missing_request_info_partial now ctx req resp rw r si st :
  ctxServerInfo ctx = Some si ->
  ctxStartTime ctx = Some st ->
  ctxRequestInfo ctx = None ->
  let r' := exec (OnRequest now ctx req resp rw) r in
  let kd := serverKey (prometheus.Name (histogramOpts requestDuration)) si in
  let bounds := upperBounds requestDuration in
  outcome (OnRequest now ctx req resp rw) r = Panic MissingRequestInfo
  /\ counterValue r' (requestKey si req rw) = S (counterValue r (requestKey si req rw))
  /\ histogramValue r' kd bounds
     = observe bounds (Seconds (Since now st)) (histogramValue r kd bounds)
  /\ (forall k, k.1 = "request_size_bytes" \/ k.1 = "response_size_bytes" ->
        histograms r' !! k = histograms r !! k)
  /\ (forall k, k.1 = "response_rcode_total" -> counters r' !! k = counters r !! k).
Proof.
  intros Hsi Hst Hri r' kd bounds. subst r' kd bounds.
  unfold exec, outcome.
  rewrite (OnRequest_run_noinfo ctx si Hsi st Hst now req resp rw r Hri).
  repeat split; try (intros k [Hk|Hk]); intros; by through_updates.
Qed.

(** ** The address-validation lookups *)

Lemma OnQUICAddressValidation_run hit r :
  OnQUICAddressValidation hit r = (Ok tt, countLookup r hit).
Proof. by destruct hit. Qed.

Lemma lookups_run hits : forall r : Registry, lookups hits r = (Ok tt, foldl countLookup r hits).
Proof.
  induction hits as [|hit rest IH]; intros r; [done|].
  simpl. unfold bind. by rewrite OnQUICAddressValidation_run, IH.
Qed.

Lemma hits_misses_ne :
  counterKey quicAddrValidationCacheLookupsHits
  ≠ counterKey quicAddrValidationCacheLookupsMisses.
Proof. discriminate. Qed.

Lemma foldl_countLookup_value hits : forall (r : Registry) (b : bool),
  counterValue (foldl countLookup r hits)
    (counterKey (if b then quicAddrValidationCacheLookupsHits
                 else quicAddrValidationCacheLookupsMisses))
  = (counterValue r
       (counterKey (if b then quicAddrValidationCacheLookupsHits
                    else quicAddrValidationCacheLookupsMisses))
     + count_occ Bool.bool_dec hits b)%nat.
Proof.
  induction hits as [|hit rest IH]; intros r b; simpl; [lia|].
  rewrite IH. unfold countLookup at 1.
  destruct (Bool.bool_dec hit b) as [->|Hne].
  - rewrite counterValue_incAt. lia.
  - rewrite counterValue_incAt_ne; [lia|].
    destruct hit, b; try done; discriminate.
Qed.

Lemma foldl_countLookup_other hits : forall (r : Registry) (k : Key),
  k ≠ counterKey quicAddrValidationCacheLookupsHits ->
  k ≠ counterKey quicAddrValidationCacheLookupsMisses ->
  counters (foldl countLookup r hits) !! k = counters r !! k.
Proof.
  induction hits as [|hit rest IH]; intros r k Hh Hm; simpl; [done|].
  rewrite IH by done. unfold countLookup.
  destruct hit; by rewrite counters_incAt_ne.
Qed.

Lemma foldl_countLookup_histograms hits : forall r : Registry,
  histograms (foldl countLookup r hits) = histograms r.
Proof.
  induction hits as [|hit rest IH]; intros r; simpl; [done|]. by rewrite IH.
Qed.

(** C4: [OnQUICAddressValidation true] increments only the child bound to
    "1" when the package is initialised and [OnQUICAddressValidation false]
    only the one bound to "0"; no label is bound in a call. Over any
    sequence of calls each of the two counters grows by the number of calls
    with its argument, never decreases, and from the initial registry
    equals that number. *)
Theorem OnQUICAddressValidation_counts (hits more : list bool) r :
  let kh := counterKey quicAddrValidationCacheLookupsHits in
  let km := counterKey quicAddrValidationCacheLookupsMisses in
  let after l := exec (lookups l) r in
  WithLabelValues quicAddrValidationCacheLookups ["1"] r
    = (Ok quicAddrValidationCacheLookupsHits, r)
  /\ WithLabelValues quicAddrValidationCacheLookups ["0"] r
    = (Ok quicAddrValidationCacheLookupsMisses, r)
  /\ OnQUICAddressValidation true r = (Ok tt, incAt kh r)
  /\ OnQUICAddressValidation false r = (Ok tt, incAt km r)
  /\ counterValue (incAt kh r) kh = S (counterValue r kh)
  /\ counterValue (incAt km r) km = S (counterValue r km)
  /\ (forall k, k ≠ kh -> counters (incAt kh r) !! k = counters r !! k)
  /\ (forall k, k ≠ km -> counters (incAt km r) !! k = counters r !! k)
  /\ histograms (incAt kh r) = histograms r
  /\ histograms (incAt km r) = histograms r
  /\ outcome (lookups hits) r = Ok tt
  /\ counterValue (after hits) kh
     = (counterValue r kh + count_occ Bool.bool_dec hits true)%nat
  /\ counterValue (after hits) km
     = (counterValue r km + count_occ Bool.bool_dec hits false)%nat
  /\ (forall k, k ≠ kh -> k ≠ km -> counters (after hits) !! k = counters r !! k)
  /\ histograms (after hits) = histograms r
  /\ (counterValue (after hits) kh <= counterValue (after (hits ++ more)%list) kh)%nat
  /\ (counterValue (after hits) km <= counterValue (after (hits ++ more)%list) km)%nat
  /\ counterValue (exec (lookups hits) emptyRegistry) kh
     = count_occ Bool.bool_dec hits true
  /\ counterValue (exec (lookups hits) emptyRegistry) km
     = count_occ Bool.bool_dec hits false.
Proof.
  intros kh km after. subst after. unfold exec, outcome.
  rewrite !lookups_run. cbn [fst snd].
  pose proof (fun l r => foldl_countLookup_value l r true) as Hh.
  pose proof (fun l r => foldl_countLookup_value l r false) as Hm.
  cbn beta iota in Hh, Hm. fold kh in Hh. fold km in Hm.
  repeat split; try reflexivity; intros;
    first
      [ by through_updates
      | apply Hh
      | apply Hm
      | by apply foldl_countLookup_other
      | apply foldl_countLookup_histograms
      | rewrite foldl_app, (Hh more); lia
      | rewrite foldl_app, (Hm more); lia
      | by rewrite Hh
      | by rewrite Hm ].
Qed.

(** ** The response-code labels *)

Lemma RcodeToString_known (c : Z) (rc : string) :
  dns.RcodeToString !! c = Some rc -> (0 <= c <= 10 \/ 16 <= c <= 23) /\ rc ≠ "" /\ rc ≠ "DROPPED".
Proof.
  intros H. apply elem_of_list_to_map_2 in H.
  repeat (apply elem_of_cons in H as [[= -> ->]|H]; [by (split; [lia|])|]).
  by apply elem_of_nil in H.
Qed.

Lemma RcodeToString_unknown (c : Z) :
  ~ (0 <= c <= 10 \/ 16 <= c <= 23) -> dns.RcodeToString !! c = None.
Proof.
  intros Hout. apply not_elem_of_list_to_map_1. simpl. intros H.
  repeat (apply elem_of_cons in H as [->|H]; [lia|]).
  by apply elem_of_nil in H.
Qed.

(** The decimal text of an integer starts with a digit or a minus sign. *)
Lemma itoa_head (n : Z) :
  exists (a : Ascii.ascii) (s : string),
    itoa n = String a s /\ a ∈ ["0"; "1"; "2"; "3"; "4"; "5"; "6"; "7"; "8"; "9"; "-"]%char.
Proof.
  unfold itoa.
  destruct n as [|p|p]; simpl; [| destruct (Pos.to_uint p) .. ]; simpl;
    eexists _, _; (split; [reflexivity|]);
    repeat first [ by apply list_elem_of_here | apply list_elem_of_further ].
Qed.

Lemma itoa_nonempty (n : Z) : itoa n ≠ "".
Proof. destruct (itoa_head n) as (a & s & -> & _). discriminate. Qed.

Lemma itoa_not_DROPPED (n : Z) : itoa n ≠ "DROPPED".
Proof.
  destruct (itoa_head n) as (a & s & -> & Ha). intros [= -> _].
  repeat (apply elem_of_cons in Ha as [Ha|Ha]; [discriminate|]).
  by apply elem_of_nil in Ha.
Qed.

(** The sentinel of a dropped request is not the label of any code. *)
Lemma rCodeToString_not_DROPPED (c : Z) : rCodeToString c ≠ "DROPPED".
Proof.
  unfold rCodeToString. destruct (dns.RcodeToString !! c) as [rc|] eqn:H.
  - by apply RcodeToString_known in H as (_ & _ & ?).
  - apply itoa_not_DROPPED.
Qed.

(** C5: the label of a response code is a function of the code and is never
    empty: 0, 2 and 3 map to NOERROR, SERVFAIL and NXDOMAIN, every code of
    the table to its mnemonic, every other code (those outside 0..10 and
    16..23) to its numeric value as decimal text; with any code the
    response-code child is bound without a panic, so the increment is not
    skipped. *)
Theorem rCodeToString_label (c : Z) :
  rCodeToString 0 = "NOERROR"
  /\ rCodeToString 2 = "SERVFAIL"
  /\ rCodeToString 3 = "NXDOMAIN"
  /\ rCodeToString c ≠ ""
  /\ (forall rc, dns.RcodeToString !! c = Some rc -> rCodeToString c = rc)
  /\ (dns.RcodeToString !! c = None -> rCodeToString c = itoa c)
  /\ (~ (0 <= c <= 10 \/ 16 <= c <= 23) -> rCodeToString c = itoa c)
  /\ forall si r,
       counterWithServerLabelsPlusRCode si (rCodeToString c) responseRCode r
       = (Ok {| counterKey := rcodeKey si (rCodeToString c) |}, r).
Proof.
  repeat split; try reflexivity.
  - unfold rCodeToString. destruct (dns.RcodeToString !! c) as [rc|] eqn:H.
    + by apply RcodeToString_known in H as (_ & ? & _).
    + apply itoa_nonempty.
  - intros rc H. unfold rCodeToString. by rewrite H.
  - intros H. unfold rCodeToString. by rewrite H.
  - intros H. unfold rCodeToString. by rewrite RcodeToString_unknown.
Qed.

(** C6: a hook that needs a field the context lacks panics ([OnRequest]
    needs the server info, the start time and the request info; the three
    other context hooks need the server info); with the fields it needs
    present a hook returns normally. *)
Theorem hooks_fail_loudly now ctx req resp rw (e : error) (v : any) r :
  (ctxServerInfo ctx = None ->
     isPanic (outcome (OnRequest now ctx req resp rw) r) = true
     /\ isPanic (outcome (OnInvalidMsg ctx) r) = true
     /\ isPanic (outcome (OnError ctx e) r) = true
     /\ isPanic (outcome (OnPanic ctx v) r) = true)
  /\ (ctxStartTime ctx = None ->
        isPanic (outcome (OnRequest now ctx req resp rw) r) = true)
  /\ (ctxRequestInfo ctx = None ->
        isPanic (outcome (OnRequest now ctx req resp rw) r) = true)
  /\ (is_Some (ctxServerInfo ctx) ->
        outcome (OnInvalidMsg ctx) r = Ok tt
        /\ outcome (OnError ctx e) r = Ok tt
        /\ outcome (OnPanic ctx v) r = Ok tt)
  /\ (is_Some (ctxServerInfo ctx) -> is_Some (ctxStartTime ctx) ->
      is_Some (ctxRequestInfo ctx) ->
        outcome (OnRequest now ctx req resp rw) r = Ok tt).
Proof.
  unfold outcome, OnRequest, OnInvalidMsg, OnError, OnPanic, bind,
    MustServerInfoFromContext, MustStartTimeFromContext, MustRequestInfoFromContext.
  repeat split; intros;
    repeat match goal with
           | H : is_Some _ |- _ => destruct H as [? ->]
           | H : _ = None |- _ => rewrite H
           end;
    try reflexivity;
    destruct (ctxServerInfo ctx), (ctxStartTime ctx); try reflexivity;
    destruct resp; reflexivity.
Qed.

(** C7: the request-size and the response-size histograms have the bounds
    0, 50, 100, 200, 300, 511, 1023, 4095, 8291; a request of 64 bytes
    answered with 128 bytes is tallied in the bucket above 50 up to 100 of
    the first and in the bucket above 100 up to 200 of the second. *)
Theorem size_histogram_buckets now si st req resp rw :
  let ctx := {| ctxServerInfo := Some si;
                ctxStartTime := Some st;
                ctxRequestInfo := Some {| RequestSize := 64; ResponseSize := 128 |} |} in
  let r' := exec (OnRequest now ctx req (Some resp) rw) emptyRegistry in
  let kq := serverKey (prometheus.Name (histogramOpts requestSize)) si in
  let kp := serverKey (prometheus.Name (histogramOpts responseSize)) si in
  Buckets (histogramOpts requestSize) = [0; 50; 100; 200; 300; 511; 1023; 4095; 8291]%Q
  /\ Buckets (histogramOpts responseSize) = [0; 50; 100; 200; 300; 511; 1023; 4095; 8291]%Q
  /\ upperBounds requestSize = Buckets (histogramOpts requestSize)
  /\ upperBounds responseSize = Buckets (histogramOpts responseSize)
  /\ findBucket (upperBounds requestSize) 64 = 2%nat
  /\ findBucket (upperBounds responseSize) 128 = 3%nat
  /\ upperBounds requestSize !! 1%nat = Some 50%Q
  /\ upperBounds requestSize !! 2%nat = Some 100%Q
  /\ upperBounds responseSize !! 2%nat = Some 100%Q
  /\ upperBounds responseSize !! 3%nat = Some 200%Q
  /\ hBuckets (histogramValue r' kq (upperBounds requestSize))
     = [0; 0; 1; 0; 0; 0; 0; 0; 0]%nat
  /\ hBuckets (histogramValue r' kp (upperBounds responseSize))
     = [0; 0; 0; 1; 0; 0; 0; 0; 0]%nat.
Proof.
  intros ctx r' kq kp. subst r' kq kp. unfold exec.
  rewrite (OnRequest_run_resp ctx si eq_refl st eq_refl now req resp rw
             {| RequestSize := 64; ResponseSize := 128 |} emptyRegistry eq_refl).
  repeat split; through_updates; reflexivity.
Qed.

(** ** The theorems at a concrete request *)

Lemma OnRequest_counts_request_witness :
  ctxServerInfo noInfoCtx = Some exampleServer
  /\ ctxStartTime noInfoCtx = Some 0
  /\ counterValue
       (exec (OnRequest 10000000 noInfoCtx exampleReq None exampleRw) emptyRegistry)
       ("request_total", ["default_dns"; "dns"; "udp"; "127.0.0.1:53"; "A"; "1"])
     = 1%nat.
Proof.
  split; [reflexivity | split; [reflexivity |]].
  exact (proj1 (proj2 (proj2 (proj2
    (OnRequest_counts_request 10000000 noInfoCtx exampleReq None exampleRw
       emptyRegistry exampleServer 0 eq_refl eq_refl))))).
Defined.

Lemma OnRequest_response_present_witness :
  ctxServerInfo exampleCtx = Some exampleServer
  /\ ctxStartTime exampleCtx = Some 0
  /\ ctxRequestInfo exampleCtx = Some exampleInfo
  /\ counterValue
       (exec (OnRequest 10000000 exampleCtx exampleReq (Some exampleResp) exampleRw)
          emptyRegistry)
       ("response_rcode_total", ["default_dns"; "dns"; "127.0.0.1:53"; "NXDOMAIN"])
     = 1%nat.
Proof.
  split; [reflexivity | split; [reflexivity | split; [reflexivity |]]].
  exact (proj1 (proj2 (proj2 (proj2 (proj2
    (OnRequest_response_present 10000000 exampleCtx exampleReq exampleResp exampleRw
       emptyRegistry exampleServer 0 exampleInfo eq_refl eq_refl eq_refl)))))).
Defined.

Lemma OnRequest_response_absent_witness :
  ctxServerInfo exampleCtx = Some exampleServer
  /\ ctxStartTime exampleCtx = Some 0
  /\ ctxRequestInfo exampleCtx = Some exampleInfo
  /\ counterValue
       (exec (OnRequest 10000000 exampleCtx exampleReq None exampleRw) emptyRegistry)
       ("response_rcode_total", ["default_dns"; "dns"; "127.0.0.1:53"; "DROPPED"])
     = 1%nat.
Proof.
  split; [reflexivity | split; [reflexivity | split; [reflexivity |]]].
  exact (proj1 (proj2 (proj2
    (OnRequest_response_absent 10000000 exampleCtx exampleReq exampleRw
       emptyRegistry exampleServer 0 exampleInfo eq_refl eq_refl eq_refl)))).
Defined.

Lemma OnQUICAddressValidation_counts_witness :
  ("request_total", []) ≠ counterKey quicAddrValidationCacheLookupsHits
  /\ ("request_total", []) ≠ counterKey quicAddrValidationCacheLookupsMisses
  /\ counters (exec (lookups [true; false; true]) emptyRegistry) !! ("request_total", [])
     = counters emptyRegistry !! ("request_total", []).
Proof.
  split; [discriminate | split; [discriminate |]].
  apply (OnQUICAddressValidation_counts [true; false; true] [] emptyRegistry);
    discriminate.
Defined.

Lemma rCodeToString_label_witness :
  dns.RcodeToString !! 3 = Some "NXDOMAIN"
  /\ rCodeToString 3 = "NXDOMAIN"
  /\ dns.RcodeToString !! 4242 = None
  /\ ~ (0 <= 4242 <= 10 \/ 16 <= 4242 <= 23)
  /\ rCodeToString 4242 = "4242".
Proof.
  split; [reflexivity |].
  split; [apply (rCodeToString_label 3); reflexivity |].
  split; [reflexivity |].
  split; [lia |].
  apply (proj1 (proj2 (proj2 (proj2 (proj2 (proj2 (proj2
    (rCodeToString_label 4242)))))))).
  lia.
Defined.

Lemma hooks_fail_loudly_witness :
  ctxServerInfo emptyCtx = None
  /\ isPanic (outcome (OnInvalidMsg emptyCtx) emptyRegistry) = true
  /\ ctxRequestInfo noInfoCtx = None
  /\ isPanic (outcome (OnRequest 10000000 noInfoCtx exampleReq None exampleRw)
                emptyRegistry) = true
  /\ is_Some (ctxServerInfo exampleCtx)
  /\ is_Some (ctxStartTime exampleCtx)
  /\ is_Some (ctxRequestInfo exampleCtx)
  /\ outcome (OnRequest 10000000 exampleCtx exampleReq None exampleRw) emptyRegistry
     = Ok tt.
Proof.
  split; [reflexivity |].
  split; [apply (hooks_fail_loudly 10000000 emptyCtx exampleReq None exampleRw
                   "refused" anyNil emptyRegistry); reflexivity |].
  split; [reflexivity |].
  split; [apply (hooks_fail_loudly 10000000 noInfoCtx exampleReq None exampleRw
                   "refused" anyNil emptyRegistry); reflexivity |].
  split; [by eexists |].
  split; [by eexists |].
  split; [by eexists |].
  apply (hooks_fail_loudly 10000000 exampleCtx exampleReq None exampleRw
           "refused" anyNil emptyRegistry); by eexists.
Defined.

Lemma OnInvalidMsg_counts_only_witness :
  ctxServerInfo exampleCtx = Some exampleServer
  /\ counterValue (exec (OnInvalidMsg exampleCtx) emptyRegistry)
       ("invalid_msg_total", ["default_dns"; "dns"; "127.0.0.1:53"])
     = 1%nat.
Proof.
  split; [reflexivity |].
  exact (proj1 (proj2 (proj2 (proj2
    (OnInvalidMsg_counts_only exampleCtx exampleServer emptyRegistry eq_refl))))).
Defined.

Lemma OnError_OnPanic_ignore_value_witness :
  ctxServerInfo exampleCtx = Some exampleServer
  /\ OnError exampleCtx "refused" emptyRegistry
     = (Ok tt,
        incAt ("error_total", ["default_dns"; "dns"; "127.0.0.1:53"]) emptyRegistry)
  /\ OnError exampleCtx "refused" emptyRegistry
     = OnError exampleCtx "timeout" emptyRegistry.
Proof.
  split; [reflexivity |].
  split.
  - exact (proj1 (proj2 (proj2
      (proj2 (proj2
         (OnError_OnPanic_ignore_value exampleCtx "refused" "timeout"
            anyNil (anyInt 7) emptyRegistry))
       exampleServer eq_refl)))).
  - exact (proj1
      (OnError_OnPanic_ignore_value exampleCtx "refused" "timeout"
         anyNil (anyInt 7) emptyRegistry)).
Defined.

Lemma OnRequest_missing_request_info_partial_witness :
  ctxServerInfo noInfoCtx = Some exampleServer
  /\ ctxStartTime noInfoCtx = Some 0
  /\ ctxRequestInfo noInfoCtx = None
  /\ outcome (OnRequest 10000000 noInfoCtx exampleReq (Some exampleResp) exampleRw)
       emptyRegistry
     = Panic MissingRequestInfo
  /\ counterValue
       (exec (OnRequest 10000000 noInfoCtx exampleReq (Some exampleResp) exampleRw)
          emptyRegistry)
       ("request_total", ["default_dns"; "dns"; "udp"; "127.0.0.1:53"; "A"; "1"])
     = 1%nat.
Proof.
  split; [reflexivity | split; [reflexivity | split; [reflexivity |]]].
  pose proof (OnRequest_missing_request_info_partial 10000000 noInfoCtx exampleReq
                (Some exampleResp) exampleRw emptyRegistry exampleServer 0
                eq_refl eq_refl eq_refl) as (Hout & Hcount & _).
  split; [exact Hout | exact Hcount].
Defined.

(** ** Calls that panic before any update *)

Lemma OnRequest_run_noserver now ctx req resp rw r :
  ctxServerInfo ctx = None ->
  OnRequest now ctx req resp rw r = (Panic MissingServerInfo, r).
Proof.
  intros Hsi. unfold OnRequest, bind, MustServerInfoFromContext. by rewrite Hsi.
Qed.

Lemma OnRequest_run_nostart now ctx req resp rw r si :
  ctxServerInfo ctx = Some si ->
  ctxStartTime ctx = None ->
  OnRequest now ctx req resp rw r = (Panic MissingStartTime, r).
Proof.
  intros Hsi Hst.
  unfold OnRequest, bind, MustServerInfoFromContext, MustStartTimeFromContext.
  by rewrite Hsi, Hst.
Qed.

Lemma server_hooks_run_noserver ctx (e : error) (v : any) r :
  ctxServerInfo ctx = None ->
  OnInvalidMsg ctx r = (Panic MissingServerInfo, r)
  /\ OnError ctx e r = (Panic MissingServerInfo, r)
  /\ OnPanic ctx v r = (Panic MissingServerInfo, r).
Proof.
  intros Hsi.
  unfold OnInvalidMsg, OnError, OnPanic, bind, MustServerInfoFromContext.
  by rewrite Hsi.
Qed.

(** ** A call as the list of its updates *)

Lemma fire_effects ev r : exec (fire ev) r = updated r (effects ev).
Proof.
  unfold exec.
  destruct ev as [now ctx req resp rw|ctx|ctx e|ctx v|hit]; simpl.
  - unfold requestUpdates.
    destruct (ctxServerInfo ctx) as [si|] eqn:Hsi;
      [|by rewrite OnRequest_run_noserver].
    destruct (ctxStartTime ctx) as [st|] eqn:Hst;
      [|by rewrite (OnRequest_run_nostart now ctx req resp rw r si)].
    destruct (ctxRequestInfo ctx) as [ri|] eqn:Hri;
      [|by rewrite (OnRequest_run_noinfo ctx si Hsi st Hst)].
    destruct resp as [resp|].
    + by rewrite (OnRequest_run_resp ctx si Hsi st Hst now req resp rw ri r Hri).
    + by rewrite (OnRequest_run_dropped ctx si Hsi st Hst now req rw ri r Hri).
  - unfold serverUpdates. destruct (ctxServerInfo ctx) as [si|] eqn:Hsi.
    + by rewrite (OnInvalidMsg_run ctx si Hsi).
    + by destruct (server_hooks_run_noserver ctx "" anyNil r Hsi) as (-> & _ & _).
  - unfold serverUpdates. destruct (ctxServerInfo ctx) as [si|] eqn:Hsi.
    + by rewrite (OnError_run ctx si Hsi).
    + by destruct (server_hooks_run_noserver ctx e anyNil r Hsi) as (_ & -> & _).
  - unfold serverUpdates. destruct (ctxServerInfo ctx) as [si|] eqn:Hsi.
    + by rewrite (OnPanic_run ctx si Hsi).
    + by destruct (server_hooks_run_noserver ctx "" v r Hsi) as (_ & _ & ->).
  - by rewrite OnQUICAddressValidation_run.
Qed.

Lemma fire_effects_request now ctx req resp rw r :
  exec (OnRequest now ctx req resp rw) r
  = updated r (requestUpdates now ctx req resp rw).
Proof. apply (fire_effects (RequestDone now ctx req resp rw)). Qed.

Lemma updated_app r us vs : updated r (us ++ vs) = updated (updated r us) vs.
Proof. apply foldl_app. Qed.

Lemma serve_effects evs : forall r : Registry,
  serve evs r = updated r (flat_map effects evs).
Proof.
  induction evs as [|ev evs IH]; intros r; [done|].
  simpl. rewrite updated_app, <- fire_effects. apply IH.
Qed.

Lemma tally_app p us vs : tally p (us ++ vs) = (tally p us + tally p vs)%nat.
Proof. unfold tally. by rewrite List.filter_app, length_app. Qed.

Lemma tally_Permutation p us vs : us ≡ₚ vs -> tally p us = tally p vs.
Proof.
  unfold tally. induction 1 as [|u us vs _ IH|u v us|us vs ws _ IH1 _ IH2]; simpl.
  - done.
  - destruct (p u); simpl; by rewrite IH.
  - by destruct (p u), (p v).
  - by rewrite IH1.
Qed.

(** ** Children through a list of updates *)

Lemma counters_updated us : forall (r : Registry) (k : Key),
  counters (updated r us) !! k
  = if decide (tally (incrementsKey k) us = 0%nat) then counters r !! k
    else Some (counterValue r k + tally (incrementsKey k) us)%nat.
Proof.
  induction us as [|u us IH]; intros r k; [done|].
  change (updated r (u :: us)) with (updated (update r u) us). rewrite IH.
  unfold tally.
  destruct u as [k'|k' bounds v]; cbn [update incrementsKey List.filter]; [|done].
  case_bool_decide as Hk; cbn [length].
  - subst k'. rewrite counterValue_incAt.
    repeat case_decide; try lia.
    + unfold incAt; simpl. rewrite lookup_insert_eq. f_equal. lia.
    + f_equal. lia.
  - by rewrite counterValue_incAt_ne, counters_incAt_ne.
Qed.

Lemma counterValue_updated us (r : Registry) (k : Key) :
  counterValue (updated r us) k
  = (counterValue r k + tally (incrementsKey k) us)%nat.
Proof.
  unfold counterValue at 1. rewrite counters_updated.
  case_decide as H; [|done]. rewrite H. unfold counterValue. lia.
Qed.

Lemma observationCount_observeAt k bounds v r :
  observationCount (observeAt k bounds v r) k = S (observationCount r k).
Proof.
  unfold observationCount, observeAt, histogramValue; simpl.
  rewrite lookup_insert_eq. simpl. by destruct (histograms r !! k).
Qed.

Lemma observationCount_updated us : forall (r : Registry) (k : Key),
  observationCount (updated r us) k
  = (observationCount r k + tally (observesKey k) us)%nat.
Proof.
  induction us as [|u us IH]; intros r k; [unfold tally; simpl; lia|].
  change (updated r (u :: us)) with (updated (update r u) us). rewrite IH.
  unfold tally.
  destruct u as [k'|k' bounds v]; cbn [update observesKey List.filter]; [done|].
  case_bool_decide as Hk; cbn [length].
  - subst k'. rewrite observationCount_observeAt. lia.
  - unfold observationCount. by rewrite histograms_observeAt_ne.
Qed.

Lemma histograms_updated_other us : forall (r : Registry) (k : Key),
  tally (observesKey k) us = 0%nat ->
  histograms (updated r us) !! k = histograms r !! k.
Proof.
  induction us as [|u us IH]; intros r k; [done|].
  change (updated r (u :: us)) with (updated (update r u) us).
  unfold tally.
  destruct u as [k'|k' bounds v]; cbn [update observesKey List.filter].
  - intros H. by rewrite IH.
  - case_bool_decide as Hk; cbn [length]; [done|].
    intros H. rewrite IH by done. by rewrite histograms_observeAt_ne.
Qed.

(** ** Totals of a family *)

Lemma weigh_insert {V} (g : Key -> V -> nat) (m : gmap (string * list string) V)
    (k : Key) (v : V) :
  (weigh g (<[k := v]> m) + from_option (g k) 0 (m !! k)
   = weigh g m + g k v)%nat.
Proof.
  unfold weigh. destruct (m !! k) as [v0|] eqn:Hk; simpl.
  - rewrite (map_fold_delete_L _ _ k v0 m) by (done || (intros; lia)).
    rewrite <- insert_delete_eq.
    rewrite map_fold_insert_L by (apply lookup_delete_eq || (intros; lia)). lia.
  - rewrite map_fold_insert_L by (done || (intros; lia)). lia.
Qed.

Lemma counterTotal_incAt family k r :
  counterTotal family (incAt k r)
  = (counterTotal family r + if bool_decide (k.1 = family) then 1 else 0)%nat.
Proof.
  unfold counterTotal, incAt, counterValue; simpl.
  pose proof (weigh_insert
    (fun k v => if bool_decide (k.1 = family) then v else 0%nat)
    (counters r) k (S (default 0%nat (counters r !! k)))) as H.
  destruct (counters r !! k); simpl in *; case_bool_decide; lia.
Qed.

Lemma observations_observeAt family k bounds v r :
  observations family (observeAt k bounds v r)
  = (observations family r + if bool_decide (k.1 = family) then 1 else 0)%nat.
Proof.
  unfold observations, observeAt, histogramValue; simpl.
  pose proof (weigh_insert
    (fun k h => if bool_decide (k.1 = family) then hCount h else 0%nat)
    (histograms r) k
    (observe bounds v (default (newHistogram bounds) (histograms r !! k)))) as H.
  destruct (histograms r !! k); simpl in *; case_bool_decide; lia.
Qed.

Lemma counterTotal_updated family us : forall r : Registry,
  counterTotal family (updated r us)
  = (counterTotal family r + tally (incrementsFamily family) us)%nat.
Proof.
  induction us as [|u us IH]; intros r; [unfold tally; simpl; lia|].
  change (updated r (u :: us)) with (updated (update r u) us). rewrite IH.
  unfold tally.
  destruct u as [k|k bounds v]; cbn [update incrementsFamily List.filter].
  - rewrite counterTotal_incAt. case_bool_decide; cbn [length]; lia.
  - done.
Qed.

Lemma observations_updated family us : forall r : Registry,
  observations family (updated r us)
  = (observations family r + tally (observesFamily family) us)%nat.
Proof.
  induction us as [|u us IH]; intros r; [unfold tally; simpl; lia|].
  change (updated r (u :: us)) with (updated (update r u) us). rewrite IH.
  unfold tally.
  destruct u as [k|k bounds v]; cbn [update observesFamily List.filter].
  - done.
  - rewrite observations_observeAt. case_bool_decide; cbn [length]; lia.
Qed.

(** What one call adds to the four totals. *)
Lemma effects_tallies ev :
  tally (incrementsFamily "request_total") (effects ev)
  = tally (observesFamily "request_duration_seconds") (effects ev)
  /\ tally (incrementsFamily "response_rcode_total") (effects ev)
     = tally (observesFamily "request_size_bytes") (effects ev)
  /\ (tally (observesFamily "response_size_bytes") (effects ev)
      <= tally (incrementsFamily "response_rcode_total") (effects ev))%nat
  /\ (tally (incrementsFamily "response_rcode_total") (effects ev)
      <= tally (incrementsFamily "request_total") (effects ev))%nat.
Proof.
  destruct ev as [now ctx req resp rw|ctx|ctx e|ctx v|hit]; simpl;
    unfold requestUpdates, serverUpdates;
    repeat match goal with
           | |- context [match ?o with Some _ => _ | None => _ end] => destruct o
           end;
    try destruct hit; unfold tally; simpl; lia.
Qed.

(** Two keys differ as soon as their first label values do. *)
Lemma key_head_ne (k k' : Key) : head k'.2 ≠ head k.2 -> k' ≠ k.
Proof. intros Hne ->. by apply Hne. Qed.

(** A key of a family or of a server that a call does not touch. *)
Ltac foreign_key :=
  first
    [ assumption
    | apply key_family_ne; simpl;
      first [ assumption | discriminate
            | repeat match goal with H : _.1 = _ |- _ => rewrite H end; discriminate ]
    | apply key_head_ne; simpl; assumption ].

Ltac through_trace :=
  unfold exec, outcome, counted, sized; cbn [fst snd updated foldl update];
  repeat first
    [ rewrite counterValue_incAt
    | rewrite counterValue_observeAt
    | rewrite counters_observeAt
    | rewrite histograms_incAt
    | rewrite histogramValue_incAt
    | rewrite histogramValue_observeAt
    | rewrite counterValue_incAt_ne by foreign_key
    | rewrite counters_incAt_ne by foreign_key
    | rewrite histogramValue_observeAt_ne by foreign_key
    | rewrite histograms_observeAt_ne by foreign_key ].


(** The request-size child after a call on a context with the three
    fields. *)
Lemma OnRequest_observes_request_size_child now ctx req resp rw r si st ri :
  ctxServerInfo ctx = Some si ->
  ctxStartTime ctx = Some st ->
  ctxRequestInfo ctx = Some ri ->
  histogramValue (exec (OnRequest now ctx req resp rw) r)
    (serverKey (prometheus.Name (histogramOpts requestSize)) si)
    (upperBounds requestSize)
  = observe (upperBounds requestSize) (inject_Z (RequestSize ri))
      (histogramValue r (serverKey (prometheus.Name (histogramOpts requestSize)) si)
         (upperBounds requestSize)).
Proof.
  intros Hsi Hst Hri.
  rewrite fire_effects_request. unfold requestUpdates. rewrite Hsi, Hst, Hri.
  destruct resp as [resp|]; by through_trace.
Qed.

(** ** Further properties of the hooks *)


(** X2: an [OnRequest] on a context that carries the three fields returns
    normally and observes the request size once into the request-size child
    of the three server labels, with a response and without one; no other
    child of the family changes. *)
Theorem OnRequest_observes_request_size now ctx req resp rw r si st ri :
  ctxServerInfo ctx = Some si ->
  ctxStartTime ctx = Some st ->
  ctxRequestInfo ctx = Some ri ->
  let r' := exec (OnRequest now ctx req resp rw) r in
  let kq := serverKey (prometheus.Name (histogramOpts requestSize)) si in
  let bounds := upperBounds requestSize in
  outcome (OnRequest now ctx req resp rw) r = Ok tt
  /\ kq = ("request_size_bytes", [dnsserver.Name si; Proto si; Addr si])
  /\ histogramValue r' kq bounds
     = observe bounds (inject_Z (RequestSize ri)) (histogramValue r kq bounds)
  /\ observationCount r' kq = S (observationCount r kq)
  /\ forall k', k'.1 = "request_size_bytes" -> k' ≠ kq ->
       histograms r' !! k' = histograms r !! k'.
Proof.
  intros Hsi Hst Hri r' kq bounds. subst r' kq bounds.
  split.
  { unfold outcome. destruct resp as [resp|].
    - by rewrite (OnRequest_run_resp ctx si Hsi st Hst now req resp rw ri r Hri).
    - by rewrite (OnRequest_run_dropped ctx si Hsi st Hst now req rw ri r Hri). }
  split; [done |].
  rewrite fire_effects_request. unfold requestUpdates. rewrite Hsi, Hst, Hri.
  repeat split; intros; destruct resp as [resp|];
    try (by through_trace);
    rewrite observationCount_updated; unfold tally; simpl;
    rewrite bool_decide_eq_true_2 by done; simpl; lia.
Qed.

(** X3: a hook that finds no server info panics with the registry untouched,
    and so does [OnRequest] when the server info is there and the start time
    is not: these two failures leave no partial update. The panic names the
    first field that is missing. *)
Theorem missing_field_leaves_registry now ctx req resp rw (e : error) (v : any) r :
  (ctxServerInfo ctx = None ->
     OnRequest now ctx req resp rw r = (Panic MissingServerInfo, r)
     /\ OnInvalidMsg ctx r = (Panic MissingServerInfo, r)
     /\ OnError ctx e r = (Panic MissingServerInfo, r)
     /\ OnPanic ctx v r = (Panic MissingServerInfo, r))
  /\ (is_Some (ctxServerInfo ctx) -> ctxStartTime ctx = None ->
        OnRequest now ctx req resp rw r = (Panic MissingStartTime, r)).
Proof.
  split.
  - intros Hsi. split; [by apply OnRequest_run_noserver |].
    by apply server_hooks_run_noserver.
  - intros [si Hsi] Hst. by apply (OnRequest_run_nostart now ctx req resp rw r si).
Qed.


(** X5: on any context, well formed or not, [OnRequest] changes no counter
    child outside request-total and response-rcode-total and no histogram
    child outside its three histogram families; [OnInvalidMsg], [OnError]
    and [OnPanic] change no histogram at all and no counter child outside
    their own family. *)
Theorem hooks_keep_to_their_families now ctx req resp rw (e : error) (v : any) r :
  (forall k, k.1 ≠ "request_total" -> k.1 ≠ "response_rcode_total" ->
     counters (exec (OnRequest now ctx req resp rw) r) !! k = counters r !! k)
  /\ (forall k, k.1 ≠ "request_duration_seconds" -> k.1 ≠ "request_size_bytes" ->
        k.1 ≠ "response_size_bytes" ->
        histograms (exec (OnRequest now ctx req resp rw) r) !! k = histograms r !! k)
  /\ histograms (exec (OnInvalidMsg ctx) r) = histograms r
  /\ histograms (exec (OnError ctx e) r) = histograms r
  /\ histograms (exec (OnPanic ctx v) r) = histograms r
  /\ (forall k, k.1 ≠ "invalid_msg_total" ->
        counters (exec (OnInvalidMsg ctx) r) !! k = counters r !! k)
  /\ (forall k, k.1 ≠ "error_total" ->
        counters (exec (OnError ctx e) r) !! k = counters r !! k)
  /\ (forall k, k.1 ≠ "panic_total" ->
        counters (exec (OnPanic ctx v) r) !! k = counters r !! k).
Proof.
  rewrite fire_effects_request.
  rewrite (fire_effects (InvalidMsg ctx)), (fire_effects (ErrorSeen ctx e)),
    (fire_effects (PanicSeen ctx v)).
  simpl. unfold requestUpdates, serverUpdates.
  repeat split; intros;
    destruct (ctxServerInfo ctx) as [si|]; try done;
    try (destruct (ctxStartTime ctx) as [st|]; [|done];
         destruct (ctxRequestInfo ctx) as [ri|]; [destruct resp as [resp|]|]);
    by through_trace.
Qed.

(** X6: the hooks of one server leave the children of every other server
    alone: a call on a context whose server info names [si] changes no
    counter child and no histogram child whose first label value is not the
    name of [si]. *)
Theorem hooks_keep_to_their_server now ctx req resp rw (e : error) (v : any) r si k :
  ctxServerInfo ctx = Some si ->
  head k.2 ≠ Some (dnsserver.Name si) ->
  let unchanged r' :=
    counters r' !! k = counters r !! k /\ histograms r' !! k = histograms r !! k in
  unchanged (exec (OnRequest now ctx req resp rw) r)
  /\ unchanged (exec (OnInvalidMsg ctx) r)
  /\ unchanged (exec (OnError ctx e) r)
  /\ unchanged (exec (OnPanic ctx v) r).
Proof.
  intros Hsi Hk unchanged. subst unchanged. cbn beta.
  rewrite fire_effects_request.
  rewrite (fire_effects (InvalidMsg ctx)), (fire_effects (ErrorSeen ctx e)),
    (fire_effects (PanicSeen ctx v)).
  simpl. unfold requestUpdates, serverUpdates. rewrite Hsi.
  repeat split;
    try (destruct (ctxStartTime ctx) as [st|]; [|done];
         destruct (ctxRequestInfo ctx) as [ri|]; [destruct resp as [resp|]|]);
    by through_trace.
Qed.

(** X7: no call of a hook, on any context and whether it returns or panics,
    lowers a counter child or the number of observations of a histogram
    child; so over any sequence of calls every child only grows. *)
Theorem serve_monotone (evs more : list Event) r (k : Key) :
  (counterValue (serve evs r) k <= counterValue (serve (evs ++ more)%list r) k)%nat
  /\ (observationCount (serve evs r) k
      <= observationCount (serve (evs ++ more)%list r) k)%nat.
Proof.
  unfold serve. rewrite foldl_app. fold (serve evs r). fold (serve more (serve evs r)).
  rewrite (serve_effects more), counterValue_updated, observationCount_updated. lia.
Qed.

(** X8: the counters do not depend on the order of the calls: two sequences
    with the same calls, in any order, leave the same counter children and
    the same number of observations in every histogram child. *)
Theorem serve_order_irrelevant (evs evs' : list Event) r :
  evs ≡ₚ evs' ->
  counters (serve evs r) = counters (serve evs' r)
  /\ forall k, observationCount (serve evs r) k = observationCount (serve evs' r) k.
Proof.
  intros Hperm. rewrite !serve_effects.
  assert (flat_map effects evs ≡ₚ flat_map effects evs') as Hus
    by (by apply Permutation_flat_map).
  split.
  - apply map_eq. intros k. rewrite !counters_updated.
    by rewrite (tally_Permutation _ _ _ Hus).
  - intros k. rewrite !observationCount_updated.
    by rewrite (tally_Permutation _ _ _ Hus).
Qed.

Lemma tally_flat_map_effects (p q : Update -> bool) (evs : list Event) :
  (forall ev, tally p (effects ev) = tally q (effects ev)) ->
  tally p (flat_map effects evs) = tally q (flat_map effects evs).
Proof.
  intros H. induction evs as [|ev evs IH]; [done|].
  simpl. by rewrite !tally_app, H, IH.
Qed.

Lemma tally_flat_map_effects_le (p q : Update -> bool) (evs : list Event) :
  (forall ev, (tally p (effects ev) <= tally q (effects ev))%nat) ->
  (tally p (flat_map effects evs) <= tally q (flat_map effects evs))%nat.
Proof.
  intros H. induction evs as [|ev evs IH]; [done|].
  simpl. rewrite !tally_app. specialize (H ev). lia.
Qed.

Lemma consistent_empty : consistent emptyRegistry.
Proof. by repeat split. Qed.

(** X9: the initial registry is consistent and every sequence of calls, of
    any hooks on any contexts, keeps it so: the request-total children sum
    to the number of request-duration observations, the response-code
    children sum to the number of request-size observations, and there are
    at most as many response-size observations as response codes and at
    most as many response codes as requests. *)
Theorem serve_consistent (evs : list Event) r :
  consistent r -> consistent (serve evs r).
Proof.
  unfold consistent. simpl. intros (H1 & H2 & H3 & H4).
  rewrite serve_effects, !counterTotal_updated, !observations_updated.
  pose proof (tally_flat_map_effects _ _ evs (fun ev => proj1 (effects_tallies ev))).
  pose proof (tally_flat_map_effects _ _ evs
                (fun ev => proj1 (proj2 (effects_tallies ev)))).
  pose proof (tally_flat_map_effects_le _ _ evs
                (fun ev => proj1 (proj2 (proj2 (effects_tallies ev))))).
  pose proof (tally_flat_map_effects_le _ _ evs
                (fun ev => proj2 (proj2 (proj2 (effects_tallies ev))))).
  lia.
Qed.

(** ** The shape of the histogram children *)

Lemma alter_S_ge (l : list nat) : forall i : nat,
  (length l <= i)%nat -> alter S i l = l.
Proof.
  induction l as [|x l IH]; intros i Hi; [done|].
  destruct i as [|i]; simpl in *; [lia|]. f_equal. apply IH. lia.
Qed.

Lemma sum_list_alter_S (l : list nat) : forall i : nat,
  (i < length l)%nat -> sum_list (alter S i l) = S (sum_list l).
Proof.
  induction l as [|x l IH]; intros i Hi; simpl in *; [lia|].
  destruct i as [|i]; [done|].
  pose proof (IH i ltac:(lia)) as H.
  change (x + sum_list (alter S i l) = S (x + sum_list l))%nat. lia.
Qed.

Lemma sum_list_alter_S_le (l : list nat) (i : nat) :
  (sum_list (alter S i l) <= S (sum_list l))%nat.
Proof.
  destruct (decide (i < length l)%nat).
  - by rewrite sum_list_alter_S.
  - rewrite alter_S_ge by lia. lia.
Qed.

(** Two histogram families of the server with one name are one family. *)
Lemma histogramFamilies_name_inj vec vec' :
  vec ∈ histogramFamilies -> vec' ∈ histogramFamilies ->
  prometheus.Name (histogramOpts vec) = prometheus.Name (histogramOpts vec') ->
  vec = vec'.
Proof.
  unfold histogramFamilies. intros H H'.
  repeat (apply elem_of_cons in H as [->|H]);
    repeat (apply elem_of_cons in H' as [->|H']);
    try done; try (by apply elem_of_nil in H); by apply elem_of_nil in H'.
Qed.

Lemma shaped_empty : shaped emptyRegistry.
Proof. intros k h H. simpl in H. by rewrite lookup_empty in H. Qed.

Lemma shaped_incAt k r : shaped r -> shaped (incAt k r).
Proof. done. Qed.

Lemma shaped_observeAt vec labels v r :
  vec ∈ histogramFamilies ->
  shaped r ->
  shaped (observeAt (prometheus.Name (histogramOpts vec), labels) (upperBounds vec) v r).
Proof.
  intros Hvec Hr k h. unfold observeAt; cbn [histograms].
  destruct (decide (k = (prometheus.Name (histogramOpts vec), labels))) as [->|Hk].
  - rewrite lookup_insert_eq. intros [= <-]. exists vec.
    split; [done | split; [done |]].
    unfold observe, histogramValue; cbn [hBuckets hCount]. rewrite length_alter.
    match goal with
    | |- context [default _ ?o] => destruct o as [h0|] eqn:Hh0
    end; cbn [default from_option id].
    + destruct (Hr _ _ Hh0) as (vec0 & Hvec0 & Hname & Hlen & Hsum).
      pose proof (histogramFamilies_name_inj vec vec0 Hvec Hvec0 Hname) as <-.
      split; [done|].
      pose proof (sum_list_alter_S_le (hBuckets h0)
                    (findBucket (upperBounds vec) v)). lia.
    + unfold newHistogram; cbn [hBuckets hCount].
      rewrite length_replicate. split; [done|].
      pose proof (sum_list_alter_S_le (replicate (length (upperBounds vec)) 0%nat)
                    (findBucket (upperBounds vec) v)) as Hle.
      rewrite sum_list_replicate in Hle. lia.
  - rewrite lookup_insert_ne by done. apply Hr.
Qed.

Lemma shaped_fire ev r : shaped r -> shaped (exec (fire ev) r).
Proof.
  intros Hr. rewrite fire_effects.
  assert (requestDuration ∈ histogramFamilies) by (repeat constructor).
  assert (requestSize ∈ histogramFamilies) by (repeat constructor).
  assert (responseSize ∈ histogramFamilies) by (repeat constructor).
  destruct ev as [now ctx req resp rw|ctx|ctx e|ctx v|hit]; simpl;
    unfold requestUpdates, serverUpdates;
    repeat match goal with
           | |- context [match ?o with Some _ => _ | None => _ end] => destruct o
           end;
    cbn [updated foldl update]; unfold serverKey;
    repeat first
      [ assumption
      | apply shaped_incAt
      | apply (shaped_observeAt requestDuration)
      | apply (shaped_observeAt requestSize)
      | apply (shaped_observeAt responseSize) ].
Qed.

(** X10: the histogram children keep their shape: from a registry where
    every histogram child belongs to one of the three declared families,
    has one count per bound of its family and counts in its buckets no more
    than it observed, every sequence of hook calls leads to such a registry;
    the initial registry is one. *)
Theorem serve_shaped (evs : list Event) : forall r : Registry,
  shaped r -> shaped (serve evs r).
Proof.
  induction evs as [|ev evs IH]; intros r Hr; [done|].
  simpl. apply IH. by apply shaped_fire.
Qed.

(** ** The bucket of an observation *)

Lemma findBucket_le_length bounds v : (findBucket bounds v <= length bounds)%nat.
Proof.
  induction bounds as [|b bs IH]; simpl; [lia|]. destruct (Qle_bool v b); simpl; lia.
Qed.

Lemma findBucket_bound bounds v b :
  bounds !! findBucket bounds v = Some b -> (v <= b)%Q.
Proof.
  induction bounds as [|b0 bs IH]; simpl; [done|].
  destruct (Qle_bool v b0) eqn:Hle; simpl.
  - intros [= <-]. by apply Qle_bool_iff.
  - exact IH.
Qed.

Lemma findBucket_above bounds v : forall (j : nat) (b : Q),
  (j < findBucket bounds v)%nat -> bounds !! j = Some b -> (b < v)%Q.
Proof.
  induction bounds as [|b0 bs IH]; intros j b; simpl; [lia|].
  destruct (Qle_bool v b0) eqn:Hle; [lia|].
  destruct j as [|j]; simpl.
  - intros _ [= <-]. apply Qnot_le_lt. intros H. apply Qle_bool_iff in H. congruence.
  - intros Hj. apply IH. lia.
Qed.

Lemma findBucket_le bounds v (j : nat) (b : Q) :
  bounds !! j = Some b -> (v <= b)%Q -> (findBucket bounds v <= j)%nat.
Proof.
  intros Hb Hle. destruct (decide (findBucket bounds v <= j)%nat) as [|Hgt]; [done|].
  exfalso. apply (Qlt_not_le b v); [|done].
  apply (findBucket_above bounds v j b); [lia | done].
Qed.

Lemma findBucket_none bounds v :
  Forall (fun b => (b < v)%Q) bounds -> findBucket bounds v = length bounds.
Proof.
  induction 1 as [|b bs Hb _ IH]; simpl; [done|].
  destruct (Qle_bool v b) eqn:Hle; [|by rewrite IH].
  apply Qle_bool_iff in Hle. by apply Qlt_not_le in Hb.
Qed.

Lemma shaped_histogramValue vec labels r :
  vec ∈ histogramFamilies ->
  shaped r ->
  length (hBuckets (histogramValue r (prometheus.Name (histogramOpts vec), labels)
                      (upperBounds vec)))
  = length (upperBounds vec).
Proof.
  intros Hvec Hr. unfold histogramValue.
  match goal with
  | |- context [default _ ?o] => destruct o as [h0|] eqn:Hh0
  end; cbn [default from_option id].
  - destruct (Hr _ _ Hh0) as (vec0 & Hvec0 & Hname & Hlen & _).
    by pose proof (histogramFamilies_name_inj vec vec0 Hvec Hvec0 Hname) as <-.
  - unfold newHistogram; cbn [hBuckets]. apply length_replicate.
Qed.

(** Where a byte size lands among the bounds of the two size histograms. *)
Lemma size_bucket (n : Z) (h : Histogram) :
  let bounds := [0; 50; 100; 200; 300; 511; 1023; 4095; 8291]%Q in
  let i := findBucket bounds (inject_Z n) in
  let h' := observe bounds (inject_Z n) h in
  length (hBuckets h) = length bounds ->
  hBuckets h' = alter S i (hBuckets h)
  /\ hCount h' = S (hCount h)
  /\ (forall b, bounds !! i = Some b -> (inject_Z n <= b)%Q)
  /\ (forall (j : nat) b, (j < i)%nat -> bounds !! j = Some b -> (b < inject_Z n)%Q)
  /\ (n <= 8291 ->
      (i < length bounds)%nat /\ sum_list (hBuckets h') = S (sum_list (hBuckets h)))
  /\ (8291 < n -> i = length bounds /\ hBuckets h' = hBuckets h).
Proof.
  intros bounds i h' Hlen. subst i h'.
  split; [done | split; [done |]].
  split; [intros b; apply findBucket_bound |].
  split; [apply findBucket_above |].
  split.
  - intros Hn.
    assert (findBucket bounds (inject_Z n) <= 8)%nat as Hi.
    { apply (findBucket_le bounds (inject_Z n) 8 8291%Q); [done|].
      unfold Qle; simpl. lia. }
    change (length bounds) with 9%nat in *.
    split; [lia|].
    unfold observe; cbn [hBuckets]. apply sum_list_alter_S. lia.
  - intros Hn.
    assert (findBucket bounds (inject_Z n) = length bounds) as Hi.
    { apply findBucket_none. subst bounds.
      repeat constructor; unfold Qlt; simpl; lia. }
    split; [done|].
    unfold observe; cbn [hBuckets]. rewrite Hi. apply alter_S_ge. lia.
Qed.

(** X11: a request size (and, when there is a response, a response size) is
    tallied in the first bucket whose bound is at least the size: the bound
    of that bucket is not below the size and every bound before it is. A
    size of at most 8291 bytes adds one to exactly one of the nine buckets;
    a larger size changes none of them and is counted in the number of
    observations only, that is in the implicit last bucket. *)
Theorem OnRequest_size_buckets now ctx req resp rw r si st ri :
  ctxServerInfo ctx = Some si ->
  ctxStartTime ctx = Some st ->
  ctxRequestInfo ctx = Some ri ->
  shaped r ->
  let r' := exec (OnRequest now ctx req resp rw) r in
  let placed (vec : HistogramVec) (n : Z) :=
    let bounds := upperBounds vec in
    let k := serverKey (prometheus.Name (histogramOpts vec)) si in
    let h := histogramValue r k bounds in
    let h' := histogramValue r' k bounds in
    let i := findBucket bounds (inject_Z n) in
    hBuckets h' = alter S i (hBuckets h)
    /\ hCount h' = S (hCount h)
    /\ (forall b, bounds !! i = Some b -> (inject_Z n <= b)%Q)
    /\ (forall (j : nat) b, (j < i)%nat -> bounds !! j = Some b -> (b < inject_Z n)%Q)
    /\ (n <= 8291 ->
        (i < length bounds)%nat /\ sum_list (hBuckets h') = S (sum_list (hBuckets h)))
    /\ (8291 < n -> i = length bounds /\ hBuckets h' = hBuckets h) in
  placed requestSize (RequestSize ri)
  /\ (is_Some resp -> placed responseSize (ResponseSize ri)).
Proof.
  intros Hsi Hst Hri Hr r' placed. subst r' placed. cbn beta zeta.
  assert (requestSize ∈ histogramFamilies) as Hq by (repeat constructor).
  assert (responseSize ∈ histogramFamilies) as Hp by (repeat constructor).
  pose proof (shaped_histogramValue requestSize (serverLabels si) r Hq Hr) as Hlq.
  pose proof (shaped_histogramValue responseSize (serverLabels si) r Hp Hr) as Hlp.
  split.
  - replace (histogramValue (exec (OnRequest now ctx req resp rw) r) _ _)
      with (observe (upperBounds requestSize) (inject_Z (RequestSize ri))
              (histogramValue r
                 (serverKey (prometheus.Name (histogramOpts requestSize)) si)
                 (upperBounds requestSize))).
    + by apply (size_bucket (RequestSize ri)).
    + symmetry.
      apply (OnRequest_observes_request_size_child now ctx req resp rw r si st ri);
        done.
  - intros [m ->].
    replace (histogramValue (exec (OnRequest now ctx req (Some m) rw) r) _ _)
      with (observe (upperBounds responseSize) (inject_Z (ResponseSize ri))
              (histogramValue r
                 (serverKey (prometheus.Name (histogramOpts responseSize)) si)
                 (upperBounds responseSize))).
    + by apply (size_bucket (ResponseSize ri)).
    + unfold exec.
      rewrite (OnRequest_run_resp ctx si Hsi st Hst now req m rw ri r Hri).
      by through_trace.
Qed.

(** ** The further properties at a concrete request *)


Lemma OnRequest_observes_request_size_witness :
  ctxServerInfo exampleCtx = Some exampleServer
  /\ ctxStartTime exampleCtx = Some 0
  /\ ctxRequestInfo exampleCtx = Some exampleInfo
  /\ observationCount
       (exec (OnRequest 10000000 exampleCtx exampleReq (Some exampleResp) exampleRw)
          emptyRegistry)
       ("request_size_bytes", ["default_dns"; "dns"; "127.0.0.1:53"])
     = 1%nat.
Proof.
  split; [reflexivity | split; [reflexivity | split; [reflexivity |]]].
  exact (proj1 (proj2 (proj2 (proj2
    (OnRequest_observes_request_size 10000000 exampleCtx exampleReq
       (Some exampleResp) exampleRw emptyRegistry exampleServer 0 exampleInfo
       eq_refl eq_refl eq_refl))))).
Defined.

Lemma missing_field_leaves_registry_witness :
  ctxServerInfo emptyCtx = None
  /\ OnError emptyCtx "refused" emptyRegistry = (Panic MissingServerInfo, emptyRegistry)
  /\ is_Some (ctxServerInfo
                {| ctxServerInfo := Some exampleServer;
                   ctxStartTime := None;
                   ctxRequestInfo := Some exampleInfo |})
  /\ OnRequest 10000000
       {| ctxServerInfo := Some exampleServer;
          ctxStartTime := None;
          ctxRequestInfo := Some exampleInfo |}
       exampleReq (Some exampleResp) exampleRw emptyRegistry
     = (Panic MissingStartTime, emptyRegistry).
Proof.
  split; [reflexivity |].
  split; [apply (missing_field_leaves_registry 10000000 emptyCtx exampleReq None
                   exampleRw "refused" anyNil emptyRegistry); reflexivity |].
  split; [by eexists |].
  apply (missing_field_leaves_registry 10000000 _ exampleReq (Some exampleResp)
           exampleRw "refused" anyNil emptyRegistry); [by eexists | reflexivity].
Defined.


Lemma hooks_keep_to_their_families_witness :
  ("error_total", ["default_dns"; "dns"; "127.0.0.1:53"]).1 ≠ "request_total"
  /\ ("error_total", ["default_dns"; "dns"; "127.0.0.1:53"]).1 ≠ "response_rcode_total"
  /\ counters
       (exec (OnRequest 10000000 exampleCtx exampleReq None exampleRw) emptyRegistry)
     !! ("error_total", ["default_dns"; "dns"; "127.0.0.1:53"])
     = counters emptyRegistry !! ("error_total", ["default_dns"; "dns"; "127.0.0.1:53"]).
Proof.
  split; [discriminate | split; [discriminate |]].
  apply (proj1
    (hooks_keep_to_their_families 10000000 exampleCtx exampleReq None exampleRw
       "refused" anyNil emptyRegistry));
    discriminate.
Defined.

Lemma hooks_keep_to_their_server_witness :
  ctxServerInfo exampleCtx = Some exampleServer
  /\ head ("error_total", ["other_dns"; "dns"; "127.0.0.1:53"]).2
     ≠ Some (dnsserver.Name exampleServer)
  /\ counters (exec (OnError exampleCtx "refused") emptyRegistry)
     !! ("error_total", ["other_dns"; "dns"; "127.0.0.1:53"])
     = counters emptyRegistry !! ("error_total", ["other_dns"; "dns"; "127.0.0.1:53"]).
Proof.
  split; [reflexivity | split; [discriminate |]].
  apply (hooks_keep_to_their_server 10000000 exampleCtx exampleReq None exampleRw
           "refused" anyNil emptyRegistry exampleServer
           ("error_total", ["other_dns"; "dns"; "127.0.0.1:53"]));
    [reflexivity | discriminate].
Defined.

Lemma serve_order_irrelevant_witness :
  [InvalidMsg exampleCtx; QUICAddressValidation true]
  ≡ₚ [QUICAddressValidation true; InvalidMsg exampleCtx]
  /\ counters (serve [InvalidMsg exampleCtx; QUICAddressValidation true] emptyRegistry)
     = counters (serve [QUICAddressValidation true; InvalidMsg exampleCtx] emptyRegistry).
Proof.
  split; [apply perm_swap |].
  apply (serve_order_irrelevant
           [InvalidMsg exampleCtx; QUICAddressValidation true]
           [QUICAddressValidation true; InvalidMsg exampleCtx] emptyRegistry).
  apply perm_swap.
Defined.

Lemma serve_consistent_witness :
  consistent emptyRegistry
  /\ consistent
       (serve [RequestDone 10000000 exampleCtx exampleReq (Some exampleResp) exampleRw;
               RequestDone 20000000 noInfoCtx exampleReq None exampleRw;
               ErrorSeen emptyCtx "refused"]
          emptyRegistry).
Proof.
  assert (consistent emptyRegistry) as H by (repeat split; reflexivity).
  split; [exact H |].
  apply (serve_consistent _ emptyRegistry H).
Defined.

Lemma serve_shaped_witness :
  shaped emptyRegistry
  /\ shaped
       (serve [RequestDone 10000000 exampleCtx exampleReq (Some exampleResp) exampleRw;
               RequestDone 20000000 noInfoCtx exampleReq None exampleRw]
          emptyRegistry).
Proof.
  split; [exact shaped_empty |].
  apply (serve_shaped _ emptyRegistry shaped_empty).
Defined.

Lemma OnRequest_size_buckets_witness :
  ctxServerInfo exampleCtx = Some exampleServer
  /\ ctxStartTime exampleCtx = Some 0
  /\ ctxRequestInfo exampleCtx = Some exampleInfo
  /\ shaped emptyRegistry
  /\ RequestSize exampleInfo <= 8291
  /\ (findBucket (upperBounds requestSize) (inject_Z (RequestSize exampleInfo))
      < length (upperBounds requestSize))%nat.
Proof.
  split; [reflexivity | split; [reflexivity | split; [reflexivity |]]].
  split; [exact shaped_empty |].
  split; [simpl; lia |].
  apply (proj1 (OnRequest_size_buckets 10000000 exampleCtx exampleReq None exampleRw
                  emptyRegistry exampleServer 0 exampleInfo
                  eq_refl eq_refl eq_refl shaped_empty)).
  simpl; lia.
Defined.
